(** * Nebraska: event registration and rollout consequences

    A shallow embedding of [backend/pkg/api/events.go]: [RegisterEvent],
    [triggerEventConsequences] and [GetEvent], over an explicit model of
    the PostgreSQL tables the three functions read and write.

    Go's [error] results are [option error] ([None] is [nil]); the
    [*API] receiver is threaded as explicit state.  Every statement sent
    to the database may fail: the state carries a schedule of failures,
    one flag per statement, so that the error paths of the source are
    reachable.  The state also keeps the statements sent and the lines
    logged, in order.

    Not modelled: the error result of goqu's [ToSQL], which the source
    checks after building each of its three statements; the statements are
    fixed and well formed. *)

From Stdlib Require Import ZArith String List Bool Lia.
From stdpp Require Import base option list gmap strings.

Local Open Scope string_scope.

(** ** Constants of events.go *)

Definition EventUpdateComplete : Z := 3.
Definition EventUpdateDownloadStarted : Z := 13.
Definition EventUpdateDownloadFinished : Z := 14.
Definition EventUpdateInstalled : Z := 800.

Definition ResultFailed : Z := 0.
Definition ResultSuccess : Z := 1.
Definition ResultSuccessReboot : Z := 2.

(** The error values declared in events.go, and the two kinds of error
    that database/sql hands back ([sql.ErrNoRows] and anything else). *)
Inductive error : Type :=
| ErrInvalidInstance
| ErrInvalidApplicationOrGroup
| ErrInvalidEventTypeOrResult
| ErrEventRegistrationFailed
| ErrNoUpdateInProgress
| ErrFlatcarEventIgnored
| ErrNoRows
| ErrDriver.

Inductive res (A : Type) : Type :=
| Ok (a : A)
| Err (e : error).
Arguments Ok {A} a.
Arguments Err {A} e.

(** ** Data model *)

(** [null.String] of gopkg.in/guregu/null.v4. *)
Module null.
Record String_ : Type := NewString { Str : string; Valid : bool }.
End null.

(** Modelled from the spec: the [InstanceStatus*] constants (instances.go is
    not among the sources); the states of the [UpdateStatus] enumeration. *)
Inductive InstanceStatus : Type :=
| InstanceStatusUndefined
| InstanceStatusDownloading
| InstanceStatusDownloaded
| InstanceStatusInstalled
| InstanceStatusComplete
| InstanceStatusError.

(** Modelled from the spec: the activity constants (activity.go is not among
    the sources); the three kinds of entry the events code appends and
    their two severities. *)
Inductive ActivityClass : Type :=
| activityRolloutFinished
| activityRolloutFailed
| activityInstanceUpdateFailed.

Inductive ActivitySeverity : Type :=
| activitySuccess
| activityError.

Module Event.
(** A row of table [event]; the fields of [type Event struct]. *)
Record t : Type := Build {
  ID : Z;
  CreatedTs : Z;
  PreviousVersion : null.String_;
  ErrorCode : null.String_;
  InstanceID : string;
  ApplicationID : string;
  EventTypeID : Z }.
End Event.

Module EventType.
(** A row of table [event_type]: one id per supported (type, result). *)
Record t : Type := Build { ID : Z; Type_ : Z; Result : Z }.
End EventType.

Module InstanceApplication.
(** Modelled from the spec: the per-instance application binding
    ([instance.Application] in the source; its struct is in
    instances.go). *)
Record t : Type := Build {
  ApplicationID : string;
  GroupID : string;
  Status : InstanceStatus;
  UpdateInProgress : bool;
  LastUpdateVersion : null.String_ }.
End InstanceApplication.

Module Instance.
(** What [GetInstance] returns: the instance and its binding to the
    application asked for. *)
Record t : Type := Build { ID : string; Application : InstanceApplication.t }.
End Instance.

Module Group.
(** Modelled from the spec: a rollout unit with its flags and target
    version (groups.go is not among the sources). *)
Record t : Type := Build {
  ID : string;
  ApplicationID : string;
  TargetVersion : string;
  RolloutInProgress : bool;
  PolicyUpdatesEnabled : bool }.
End Group.

Module Activity.
Record t : Type := Build {
  Class : ActivityClass;
  Severity : ActivitySeverity;
  Version : string;
  AppID : string;
  GroupID : string;
  InstanceID : option string }.
End Activity.

Record UpdatesStats : Type := {
  TotalInstances : Z;
  UpdatesToCurrentVersionAttempted : Z;
  UpdatesToCurrentVersionSucceeded : Z }.

(** The tables.  Instance bindings are keyed by (instance id, application
    id), groups by id; [event] and [activity] are append-only, in insertion
    order.  [now] is the database clock that stamps [created_ts]. *)
Record Store : Type := {
  instance_application : gmap (string * string) InstanceApplication.t;
  groups : gmap string Group.t;
  event_type : list EventType.t;
  event : list Event.t;
  activity : list Activity.t;
  now : Z }.

(** The statements the three functions send to the database. *)
Inductive Stmt : Type :=
| SelectGroup (groupID : string)
| SelectInstance (instanceID appID : string)
| UpdateInstanceStatus (instanceID appID : string) (status : InstanceStatus)
| SelectEventType (etype eresult : Z)
| InsertEvent (eventTypeID : Z) (instanceID appID previousVersion errorCode : string)
| SelectUpdatesStats (groupID : string)
| UpdateRolloutInProgress (groupID : string) (inProgress : bool)
| UpdatePolicyUpdatesEnabled (groupID : string) (enabled : bool)
| InsertActivity (a : Activity.t)
| SelectEvent (instanceID appID : string) (timestamp : Z).

Inductive Level : Type := InfoLevel | ErrorLevel.

(** The receiver [api *API]: the database behind [api.db], the
    configuration flag, the failures still to come (one flag per statement,
    none once the list is empty), the statements issued so far and the lines
    written to the logger [l]. *)
Record API : Type := {
  db : Store;
  disableUpdatesOnFailedRollout : bool;
  faults : list bool;
  journal : list Stmt;
  logged : list (Level * string) }.

(** ** State passing *)

Definition M (A : Type) : Type := API -> A * API.

Definition ret {A} (a : A) : M A := fun w => (a, w).

Definition bind {A B} (m : M A) (k : A -> M B) : M B :=
  fun w => let (a, w') := m w in k a w'.

Notation "'let*' x ':=' m 'in' k" := (bind m (fun x => k))
  (at level 10, x name, m at level 100, k at level 200).

(** The three ways the state moves on: a statement is sent (it is
    journalled and the next failure flag is consumed), the tables change,
    a line is logged. *)
Definition issued (s : Stmt) (w : API) : API :=
  {| db := db w;
     disableUpdatesOnFailedRollout := disableUpdatesOnFailedRollout w;
     faults := tl (faults w);
     journal := journal w ++ [s];
     logged := logged w |}.

Definition stored (f : Store -> Store) (w : API) : API :=
  {| db := f (db w);
     disableUpdatesOnFailedRollout := disableUpdatesOnFailedRollout w;
     faults := faults w;
     journal := journal w;
     logged := logged w |}.

Definition noted (lv : Level) (msg : string) (w : API) : API :=
  {| db := db w;
     disableUpdatesOnFailedRollout := disableUpdatesOnFailedRollout w;
     faults := faults w;
     journal := journal w;
     logged := logged w ++ [(lv, msg)] |}.

Definition getDB : M Store := fun w => (db w, w).

Definition getHalt : M bool := fun w => (disableUpdatesOnFailedRollout w, w).

Definition modifyDB (f : Store -> Store) : M unit := fun w => (tt, stored f w).

(** One round trip to the database; the result tells whether it failed. *)
Definition exec (s : Stmt) : M bool := fun w => (hd false (faults w), issued s w).

Definition log (lv : Level) (msg : string) : M unit := fun w => (tt, noted lv msg w).

(** [if err != nil { l.Error().Err(err).Msg(msg) }] *)
Definition logIfErr (err : option error) (msg : string) : M unit :=
  match err with
  | Some _ => log ErrorLevel msg
  | None => ret tt
  end.

(** ** Row updates *)

Definition setStatus (s : InstanceStatus) (a : InstanceApplication.t) : InstanceApplication.t :=
  InstanceApplication.Build (InstanceApplication.ApplicationID a)
    (InstanceApplication.GroupID a) s
    (InstanceApplication.UpdateInProgress a)
    (InstanceApplication.LastUpdateVersion a).

Definition setRollout (b : bool) (g : Group.t) : Group.t :=
  Group.Build (Group.ID g) (Group.ApplicationID g) (Group.TargetVersion g)
    b (Group.PolicyUpdatesEnabled g).

Definition setUpdatesEnabled (b : bool) (g : Group.t) : Group.t :=
  Group.Build (Group.ID g) (Group.ApplicationID g) (Group.TargetVersion g)
    (Group.RolloutInProgress g) b.

Definition writeInstanceStatus (instanceID appID : string) (s : InstanceStatus)
  (d : Store) : Store :=
  {| instance_application := alter (setStatus s) (instanceID, appID) (instance_application d);
     groups := groups d; event_type := event_type d; event := event d;
     activity := activity d; now := now d |}.

Definition writeGroup (f : Group.t -> Group.t) (groupID : string) (d : Store) : Store :=
  {| instance_application := instance_application d;
     groups := alter f groupID (groups d);
     event_type := event_type d; event := event d;
     activity := activity d; now := now d |}.

Definition appendActivity (a : Activity.t) (d : Store) : Store :=
  {| instance_application := instance_application d;
     groups := groups d; event_type := event_type d; event := event d;
     activity := activity d ++ [a]; now := now d |}.

(** The row an [INSERT INTO event] creates: the serial id and [created_ts]
    are column defaults, the five listed columns come from the caller. *)
Definition newEventRow (d : Store) (eventTypeID : Z)
  (instanceID appID previousVersion errorCode : string) : Event.t :=
  Event.Build (Z.of_nat (length (event d)) + 1) (now d)
    (null.NewString previousVersion true) (null.NewString errorCode true)
    instanceID appID eventTypeID.

(** [created_ts] is not among the inserted columns: the database fills it
    from its clock.  The clock is modelled as logical, moving on with every
    inserted event. *)
Definition appendEvent (e : Event.t) (d : Store) : Store :=
  {| instance_application := instance_application d;
     groups := groups d; event_type := event_type d;
     event := event d ++ [e];
     activity := activity d; now := (now d + 1)%Z |}.

(** ** Collaborators

    The functions below are called by events.go and defined elsewhere in
    package [api].  Each is one statement: it fails when the database
    does, and otherwise reads or writes the rows the spec names. *)

(** Modelled from the spec: [GetGroup] (groups.go), the lookup of a group by
    its id. *)
Definition GetGroup (groupID : string) : M (res Group.t) :=
  let* failed := exec (SelectGroup groupID) in
  if failed then ret (Err ErrDriver)
  else
    let* d := getDB in
    match groups d !! groupID with
    | Some g => ret (Ok g)
    | None => ret (Err ErrNoRows)
    end.

(** Modelled from the spec: [validateApplicationAndGroup] (not among the
    sources): the group must exist and belong to the application, else
    [ErrInvalidApplicationOrGroup]; the identifiers come back resolved. *)
Definition validateApplicationAndGroup (appID groupID : string)
  : M (res (string * string)) :=
  let* g := GetGroup groupID in
  match g with
  | Ok group =>
      if String.eqb (Group.ApplicationID group) appID
      then ret (Ok (appID, groupID))
      else ret (Err ErrInvalidApplicationOrGroup)
  | Err _ => ret (Err ErrInvalidApplicationOrGroup)
  end.

(** Modelled from the spec: [GetInstance] (instances.go), the instance with
    its binding to the given application, or not found. *)
Definition GetInstance (instanceID appID : string) : M (res Instance.t) :=
  let* failed := exec (SelectInstance instanceID appID) in
  if failed then ret (Err ErrDriver)
  else
    let* d := getDB in
    match instance_application d !! (instanceID, appID) with
    | Some a => ret (Ok (Instance.Build instanceID a))
    | None => ret (Err ErrNoRows)
    end.

(** Modelled from the spec: [updateInstanceStatus] (instances.go), which
    sets the status of the binding of the instance to the application. *)
Definition updateInstanceStatus (instanceID appID : string) (newStatus : InstanceStatus)
  : M (option error) :=
  let* failed := exec (UpdateInstanceStatus instanceID appID newStatus) in
  if failed then ret (Some ErrDriver)
  else
    let* _ := modifyDB (writeInstanceStatus instanceID appID newStatus) in
    ret None.

(** Modelled from the spec: [updateInstanceObjStatus] (instances.go), the
    same update for an instance already fetched. *)
Definition updateInstanceObjStatus (instance : Instance.t) (newStatus : InstanceStatus)
  : M (option error) :=
  updateInstanceStatus (Instance.ID instance)
    (InstanceApplication.ApplicationID (Instance.Application instance)) newStatus.

(** Modelled from the spec: [setGroupRolloutInProgress] (groups.go). *)
Definition setGroupRolloutInProgress (groupID : string) (inProgress : bool)
  : M (option error) :=
  let* failed := exec (UpdateRolloutInProgress groupID inProgress) in
  if failed then ret (Some ErrDriver)
  else
    let* _ := modifyDB (writeGroup (setRollout inProgress) groupID) in
    ret None.

(** Modelled from the spec: [disableUpdates] (groups.go). *)
Definition disableUpdates (groupID : string) : M (option error) :=
  let* failed := exec (UpdatePolicyUpdatesEnabled groupID false) in
  if failed then ret (Some ErrDriver)
  else
    let* _ := modifyDB (writeGroup (setUpdatesEnabled false) groupID) in
    ret None.

Definition insertActivity (a : Activity.t) : M (option error) :=
  let* failed := exec (InsertActivity a) in
  if failed then ret (Some ErrDriver)
  else
    let* _ := modifyDB (appendActivity a) in
    ret None.

(** Modelled from the spec: [newGroupActivityEntry] (activity.go), which
    appends an entry tagged with the version, application and group. *)
Definition newGroupActivityEntry (class : ActivityClass) (severity : ActivitySeverity)
  (version appID groupID : string) : M (option error) :=
  insertActivity (Activity.Build class severity version appID groupID None).

(** Modelled from the spec: [newInstanceActivityEntry] (activity.go), the
    same with the instance. *)
Definition newInstanceActivityEntry (class : ActivityClass) (severity : ActivitySeverity)
  (version appID groupID instanceID : string) : M (option error) :=
  insertActivity (Activity.Build class severity version appID groupID (Some instanceID)).

(** ** The queries events.go builds itself *)

(** [SELECT id FROM event_type WHERE type = etype AND result = eresult],
    scanned into one int: the first matching row, [sql.ErrNoRows] if none. *)
Definition findEventType (etype eresult : Z) (table : list EventType.t) : option Z :=
  EventType.ID <$>
    List.find (fun r => (EventType.Type_ r =? etype)%Z && (EventType.Result r =? eresult)%Z) table.

Definition selectEventTypeID (etype eresult : Z) : M (res Z) :=
  let* failed := exec (SelectEventType etype eresult) in
  if failed then ret (Err ErrDriver)
  else
    let* d := getDB in
    match findEventType etype eresult (event_type d) with
    | Some id => ret (Ok id)
    | None => ret (Err ErrNoRows)
    end.

(** [INSERT INTO event (event_type_id, instance_id, application_id,
    previous_version, error_code) VALUES (...)]. *)
Definition insertEvent (eventTypeID : Z) (instanceID appID previousVersion errorCode : string)
  : M (option error) :=
  let* failed := exec (InsertEvent eventTypeID instanceID appID previousVersion errorCode) in
  if failed then ret (Some ErrDriver)
  else
    let* d := getDB in
    let* _ := modifyDB (appendEvent (newEventRow d eventTypeID instanceID appID previousVersion errorCode)) in
    ret None.

(** [WHERE instance_id = .. AND application_id = .. AND created_ts <= ..] *)
Definition eventMatches (instanceID appID : string) (timestamp : Z) (e : Event.t) : bool :=
  String.eqb (Event.InstanceID e) instanceID
  && String.eqb (Event.ApplicationID e) appID
  && (Event.CreatedTs e <=? timestamp)%Z.

(** [ORDER BY created_ts DESC LIMIT 1].  SQL leaves the order of rows with
    equal [created_ts] open; here the earliest inserted of them is taken. *)
Fixpoint newest (rows : list Event.t) : option Event.t :=
  match rows with
  | [] => None
  | e :: rest =>
      match newest rest with
      | Some e' => if (Event.CreatedTs e <? Event.CreatedTs e')%Z then Some e' else Some e
      | None => Some e
      end
  end.

(** ** events.go *)

Section Events.

(** The identifier of the Flatcar application, a constant of package
    [api] declared outside events.go. *)
Variable flatcarAppID : string.

(** The rows [getGroupUpdatesStats] (groups.go) computes for a group from
    the current tables: a pure read. *)
Variable updatesStats : Store -> Group.t -> UpdatesStats.

Definition getGroupUpdatesStats (group : Group.t) : M (res UpdatesStats) :=
  let* failed := exec (SelectUpdatesStats (Group.ID group)) in
  if failed then ret (Err ErrDriver)
  else
    let* d := getDB in
    ret (Ok (updatesStats d group)).

(** The guards of [RegisterEvent] (lines 109-110) and of the five branches
    of [triggerEventConsequences] (lines 169, 188, 194, 200, 206). *)
Definition flatcarIgnored (appID : string) (etype eresult : Z) (previousVersion : string) : bool :=
  (String.eqb appID flatcarAppID && (etype =? EventUpdateComplete)%Z
     && (eresult =? ResultSuccessReboot)%Z)
  && (String.eqb previousVersion "" || String.eqb previousVersion "0.0.0.0").

Definition guardComplete (appID : string) (etype result : Z) : bool :=
  (etype =? EventUpdateComplete)%Z
  && ((result =? ResultSuccessReboot)%Z
      || (negb (String.eqb appID flatcarAppID) && (result =? ResultSuccess)%Z)).

Definition guardDownloadStarted (etype result : Z) : bool :=
  (etype =? EventUpdateDownloadStarted)%Z && (result =? ResultSuccess)%Z.

Definition guardDownloadFinished (etype result : Z) : bool :=
  (etype =? EventUpdateDownloadFinished)%Z && (result =? ResultSuccess)%Z.

Definition guardInstalled (etype result : Z) : bool :=
  (etype =? EventUpdateInstalled)%Z && (result =? ResultSuccess)%Z.

Definition guardFailed (result : Z) : bool := (result =? ResultFailed)%Z.

Definition triggerEventConsequences
  (instanceID appID groupID lastUpdateVersion : string) (etype result : Z)
  : M (option error) :=
  let* g := GetGroup groupID in
  match g with
  | Err err => ret (Some err)
  | Ok group =>
    let* completed :=
      (if guardComplete appID etype result then
         let* err := updateInstanceStatus instanceID appID InstanceStatusComplete in
         let* _ := logIfErr err "triggerEventConsequences - could not update instance status" in
         let* s := getGroupUpdatesStats group in
         match s with
         | Err err => ret (Some err)
         | Ok updatesStats =>
           if (UpdatesToCurrentVersionSucceeded updatesStats =? TotalInstances updatesStats)%Z then
             let* err := setGroupRolloutInProgress groupID false in
             let* _ := logIfErr err "triggerEventConsequences - could not set rollout progress" in
             let* err := newGroupActivityEntry activityRolloutFinished activitySuccess
                           lastUpdateVersion appID groupID in
             let* _ := logIfErr err "triggerEventConsequences - could not add group activity" in
             ret None
           else ret None
         end
       else ret None) in
    match completed with
    | Some err => ret (Some err)
    | None =>
      let* _ :=
        (if guardDownloadStarted etype result then
           let* err := updateInstanceStatus instanceID appID InstanceStatusDownloading in
           logIfErr err "triggerEventConsequences - could not update instance status"
         else ret tt) in
      let* _ :=
        (if guardDownloadFinished etype result then
           let* err := updateInstanceStatus instanceID appID InstanceStatusDownloaded in
           logIfErr err "triggerEventConsequences - could not update instance status"
         else ret tt) in
      let* _ :=
        (if guardInstalled etype result then
           let* err := updateInstanceStatus instanceID appID InstanceStatusInstalled in
           logIfErr err "triggerEventConsequences - could not update instance status"
         else ret tt) in
      if guardFailed result then
        let* err := updateInstanceStatus instanceID appID InstanceStatusError in
        let* _ := logIfErr err "triggerEventConsequences - could not update instance status" in
        let* err := newInstanceActivityEntry activityInstanceUpdateFailed activityError
                      lastUpdateVersion appID groupID instanceID in
        let* _ := logIfErr err "triggerEventConsequences - could not add instance activity" in
        let* halt := getHalt in
        if halt then
          let* s := getGroupUpdatesStats group in
          match s with
          | Err err => ret (Some err)
          | Ok updatesStats =>
            if (UpdatesToCurrentVersionAttempted updatesStats =? 1)%Z then
              let* err := disableUpdates groupID in
              let* _ := logIfErr err "triggerEventConsequences - could not disable updates" in
              let* err := setGroupRolloutInProgress groupID false in
              let* _ := logIfErr err "triggerEventConsequences - could not set rollout progress" in
              let* err := newGroupActivityEntry activityRolloutFailed activityError
                            lastUpdateVersion appID groupID in
              let* _ := logIfErr err "triggerEventConsequences - could not add group activity" in
              ret None
            else ret None
          end
        else ret None
      else ret None
    end
  end.

Definition RegisterEvent
  (instanceID appID groupID : string) (etype eresult : Z)
  (previousVersion errorCode : string) : M (option error) :=
  let* v := validateApplicationAndGroup appID groupID in
  match v with
  | Err err => ret (Some err)
  | Ok (appID, groupID) =>
    let* i := GetInstance instanceID appID in
    match i with
    | Err _ =>
      let* _ := log InfoLevel "RegisterEvent - could not get instance, maybe it is a first contact (propagates as ErrInvalidInstance)" in
      ret (Some ErrInvalidInstance)
    | Ok instance =>
      if negb (String.eqb (InstanceApplication.ApplicationID (Instance.Application instance)) appID)
      then ret (Some ErrInvalidApplicationOrGroup)
      else if negb (InstanceApplication.UpdateInProgress (Instance.Application instance))
      then ret (Some ErrNoUpdateInProgress)
      else if flatcarIgnored appID etype eresult previousVersion
      then
        let* err := updateInstanceObjStatus instance InstanceStatusUndefined in
        let* _ := logIfErr err "RegisterEvent - could not update instance status" in
        ret (Some ErrFlatcarEventIgnored)
      else
        let* t := selectEventTypeID etype eresult in
        match t with
        | Err _ => ret (Some ErrInvalidEventTypeOrResult)
        | Ok eventTypeID =>
          let* err := insertEvent eventTypeID instanceID appID previousVersion errorCode in
          match err with
          | Some _ => ret (Some ErrEventRegistrationFailed)
          | None =>
            let lastUpdateVersion :=
              null.Str (InstanceApplication.LastUpdateVersion (Instance.Application instance)) in
            let* err := triggerEventConsequences instanceID appID groupID
                          lastUpdateVersion etype eresult in
            let* _ := logIfErr err "RegisterEvent - could not trigger event consequences" in
            ret None
          end
        end
    end
  end.

Definition GetEvent (instanceID appID : string) (timestamp : Z)
  : M (null.String_ * option error) :=
  let* failed := exec (SelectEvent instanceID appID timestamp) in
  if failed then ret (null.NewString "" true, Some ErrDriver)
  else
    let* d := getDB in
    match newest (List.filter (eventMatches instanceID appID timestamp) (event d)) with
    | Some e => ret (Event.ErrorCode e, None)
    | None => ret (null.NewString "" true, Some ErrNoRows)
    end.

End Events.

(** ** A concrete database

    Used to run the functions above on closed inputs.  The identifiers are
    short names, not the UUIDs of a deployment. *)

#[global] Instance InstanceStatus_eq_dec : EqDecision InstanceStatus.
Proof. solve_decision. Defined.

(** Modelled from the spec: [getGroupUpdatesStats] (groups.go is not among
    the sources): the number of instances of the group, of those that were
    given the group's target version to update to, and of those among them
    that reached [Complete]. *)
Definition specUpdatesStats (d : Store) (group : Group.t) : UpdatesStats :=
  let members :=
    List.filter (fun a => String.eqb (InstanceApplication.GroupID a) (Group.ID group))
      (snd <$> map_to_list (instance_application d)) in
  let attempted :=
    List.filter (fun a =>
        null.Valid (InstanceApplication.LastUpdateVersion a)
        && String.eqb (null.Str (InstanceApplication.LastUpdateVersion a))
             (Group.TargetVersion group)) members in
  let succeeded :=
    List.filter (fun a => bool_decide (InstanceApplication.Status a = InstanceStatusComplete))
      attempted in
  {| TotalInstances := Z.of_nat (length members);
     UpdatesToCurrentVersionAttempted := Z.of_nat (length attempted);
     UpdatesToCurrentVersionSucceeded := Z.of_nat (length succeeded) |}.

Module Sample.

Definition flatcar : string := "flatcar".
Definition otherApp : string := "other".

(** An [event_type] table: update-complete with each of the three results
    and the three progress events with [ResultSuccess]. *)
Definition eventTypes : list EventType.t :=
  [ EventType.Build 1 3 0; EventType.Build 2 3 1; EventType.Build 3 3 2;
    EventType.Build 4 13 1; EventType.Build 5 14 1; EventType.Build 6 800 1 ].

Definition binding (appID groupID : string) (s : InstanceStatus) (inProgress : bool)
  : InstanceApplication.t :=
  InstanceApplication.Build appID groupID s inProgress (null.NewString "2.0.0" true).

(** Two Flatcar groups (one of them without instances) and one group of
    another application; one instance is idle, the others were granted
    the update to 2.0.0. *)
Definition store : Store :=
  {| instance_application :=
       <[("i1", flatcar) := binding flatcar "stable" InstanceStatusDownloading true]>
       (<[("i2", flatcar) := binding flatcar "stable" InstanceStatusInstalled false]>
       (<[("i3", otherApp) := binding otherApp "prod" InstanceStatusInstalled true]> ∅));
     groups :=
       <["stable" := Group.Build "stable" flatcar "2.0.0" true true]>
       (<["empty" := Group.Build "empty" flatcar "2.0.0" true true]>
       (<["prod" := Group.Build "prod" otherApp "2.0.0" true true]> ∅));
     event_type := eventTypes;
     event := [];
     activity := [];
     now := 1000 |}.

Definition api (halt : bool) (fs : list bool) : API :=
  {| db := store; disableUpdatesOnFailedRollout := halt; faults := fs;
     journal := []; logged := [] |}.

End Sample.

(** ** Reasoning about runs

    [wp m Q w]: running [m] from [w] ends with a result and a state that
    satisfy [Q]. *)

Definition wp {A} (m : M A) (Q : A -> API -> Prop) (w : API) : Prop :=
  Q (fst (m w)) (snd (m w)).

(** Statements that write an instance's status. *)
Definition isStatusWrite (s : Stmt) : bool :=
  match s with
  | UpdateInstanceStatus _ _ _ => true
  | _ => false
  end.

(** How many of the next [n] statements fail under the schedule [fs]. *)
Fixpoint failures (n : nat) (fs : list bool) : nat :=
  match n with
  | O => O
  | S k => (if hd false fs then 1 else 0) + failures k (tl fs)
  end.

(** The clock is ahead of every stored event: what the database's clock
    guarantees for rows it stamped itself. *)
Definition stampsBeforeNow (d : Store) : Prop :=
  forall e, In e (event d) -> (Event.CreatedTs e < now d)%Z.

(** Statements that only read. *)
Definition isSelect (s : Stmt) : bool :=
  match s with
  | SelectGroup _ | SelectInstance _ _ | SelectEventType _ _
  | SelectUpdatesStats _ | SelectEvent _ _ _ => true
  | _ => false
  end.

(** What consequence evaluation may do to the flags of a group: clear
    them. *)
Definition flagsOnlyCleared (before after : Group.t) : Prop :=
  (Group.RolloutInProgress after = true -> Group.RolloutInProgress before = true)
  /\ (Group.PolicyUpdatesEnabled after = true -> Group.PolicyUpdatesEnabled before = true).


(** Whether the database fails the statement sent [k] statements from now. *)
Fixpoint faultAt (k : nat) (fs : list bool) : bool :=
  match k with
  | O => hd false fs
  | S k' => faultAt k' (tl fs)
  end.

(** A database in which the binding stored for an instance under one
    application names another application. *)
Module Skewed.

Definition store : Store :=
  {| instance_application :=
       <[("i1", Sample.flatcar) :=
           Sample.binding Sample.otherApp "prod" InstanceStatusDownloading true]> ∅;
     groups := <["stable" := Group.Build "stable" Sample.flatcar "2.0.0" true true]> ∅;
     event_type := Sample.eventTypes;
     event := [];
     activity := [];
     now := 1000 |}.

Definition api : API :=
  {| db := store; disableUpdatesOnFailedRollout := false; faults := [];
     journal := []; logged := [] |}.

End Skewed.

(** * Properties *)

(** ** Rules for [wp] *)

Lemma wp_run {A} (m : M A) (Q : A -> API -> Prop) w r w' :
  m w = (r, w') -> wp m Q w -> Q r w'.
Proof. unfold wp. now intros ->. Qed.

Lemma wp_ret {A} (a : A) (Q : A -> API -> Prop) w : Q a w -> wp (ret a) Q w.
Proof. auto. Qed.

Lemma wp_bind {A B} (m : M A) (k : A -> M B) (Q : B -> API -> Prop) w :
  wp m (fun a w' => wp (k a) Q w') w -> wp (bind m k) Q w.
Proof. unfold wp, bind. now destruct (m w). Qed.

Lemma wp_known {A} (m : M A) (Q : A -> API -> Prop) w r w' :
  m w = (r, w') -> Q r w' -> wp m Q w.
Proof. unfold wp. now intros ->. Qed.

Lemma wp_any {A} (m : M A) (Q : A -> API -> Prop) w :
  (forall r w', m w = (r, w') -> Q r w') -> wp m Q w.
Proof. unfold wp. intros H. apply H, surjective_pairing. Qed.

Lemma wp_exec s (Q : bool -> API -> Prop) w :
  Q (hd false (faults w)) (issued s w) -> wp (exec s) Q w.
Proof. auto. Qed.

Lemma wp_getDB (Q : Store -> API -> Prop) w : Q (db w) w -> wp getDB Q w.
Proof. auto. Qed.

Lemma wp_getHalt (Q : bool -> API -> Prop) w :
  Q (disableUpdatesOnFailedRollout w) w -> wp getHalt Q w.
Proof. auto. Qed.

Lemma wp_modifyDB f (Q : unit -> API -> Prop) w : Q tt (stored f w) -> wp (modifyDB f) Q w.
Proof. auto. Qed.

Lemma wp_log lv msg (Q : unit -> API -> Prop) w : Q tt (noted lv msg w) -> wp (log lv msg) Q w.
Proof. auto. Qed.

(** Projections of a state that has moved on. *)
Ltac simpl_state :=
  cbn [db disableUpdatesOnFailedRollout faults journal logged issued stored noted
       Instance.ID Instance.Application hd tl fst snd] in *.

(** One step of symbolic execution.  A run that is known is taken as
    it is; a conditional is decided by a
    hypothesis about its test when there is one, and splits the goal
    otherwise. *)
Ltac wp_step :=
  lazymatch goal with
  | H : ?m ?w = (_, _) |- wp ?m _ ?w =>
      apply (wp_known _ _ _ _ _ H); cbv beta iota; simpl_state
  | |- wp (bind _ _) _ _ => apply wp_bind
  | |- wp (ret _) _ _ => apply wp_ret; cbv beta iota; simpl_state
  | |- wp (exec _) _ _ => apply wp_exec; simpl_state; cbv beta iota
  | |- wp getDB _ _ => apply wp_getDB; simpl_state
  | |- wp getHalt _ _ => apply wp_getHalt; simpl_state
  | |- wp (modifyDB _) _ _ => apply wp_modifyDB; simpl_state
  | |- wp (log _ _) _ _ => apply wp_log; simpl_state
  | |- wp (if ?c then _ else _) _ _ =>
      first [ match goal with H : c = _ |- _ => rewrite H end
            | destruct c eqn:? ];
      cbv beta iota
  | |- wp (match ?x with _ => _ end) _ _ =>
      first [ match goal with H : x = _ |- _ => rewrite H end
            | destruct x eqn:? ];
      cbv beta iota
  | |- wp (logIfErr _ _) _ _ => unfold logIfErr
  | |- wp (GetGroup _) _ _ => unfold GetGroup
  | |- wp (GetInstance _ _) _ _ => unfold GetInstance
  | |- wp (validateApplicationAndGroup _ _) _ _ => unfold validateApplicationAndGroup
  | |- wp (updateInstanceStatus _ _ _) _ _ => unfold updateInstanceStatus
  | |- wp (updateInstanceObjStatus _ _) _ _ => unfold updateInstanceObjStatus
  | |- wp (setGroupRolloutInProgress _ _) _ _ => unfold setGroupRolloutInProgress
  | |- wp (disableUpdates _) _ _ => unfold disableUpdates
  | |- wp (newGroupActivityEntry _ _ _ _ _) _ _ => unfold newGroupActivityEntry
  | |- wp (newInstanceActivityEntry _ _ _ _ _ _) _ _ => unfold newInstanceActivityEntry
  | |- wp (insertActivity _) _ _ => unfold insertActivity
  | |- wp (selectEventTypeID _ _) _ _ => unfold selectEventTypeID
  | |- wp (insertEvent _ _ _ _ _) _ _ => unfold insertEvent
  | |- wp (getGroupUpdatesStats _ _) _ _ => unfold getGroupUpdatesStats
  end.

(** Turn a hypothesis [H : m w = (r, w')] into a [wp] goal about [m]. *)
Ltac wp_of H :=
  lazymatch type of H with
  | ?m ?w = (?r, ?w') =>
      let r' := fresh "r" in
      let E := fresh "E" in
      remember r as r' eqn:E in H; revert E;
      pattern r', w'; apply (wp_run m _ w r' w' H); clear H
  end.

(** A state whose database serves every statement. *)
Ltac no_faults w H :=
  destruct w as [? ? ?fs ? ?]; cbn [faults] in H; subst; simpl_state.

Lemma wp_fst_snd {A} (m : M A) (Q : A -> API -> Prop) w :
  wp m Q w -> Q (fst (m w)) (snd (m w)).
Proof. auto. Qed.

Lemma wp_let {A} (m : M A) (Q : A -> API -> Prop) w :
  wp m Q w -> let (r, w') := m w in Q r w'.
Proof. unfold wp. now destruct (m w). Qed.

(** ** What a successful validation tells *)

Lemma validateApplicationAndGroup_inv appID groupID w a g w' :
  validateApplicationAndGroup appID groupID w = (Ok (a, g), w') ->
  a = appID /\ g = groupID /\ w' = issued (SelectGroup groupID) w
  /\ hd false (faults w) = false
  /\ exists group, groups (db w) !! groupID = Some group
                   /\ Group.ApplicationID group = appID.
Proof.
  intros H. wp_of H.
  repeat wp_step; try discriminate.
  intros [= -> ->]. repeat split; eauto.
  eexists; split; [reflexivity | now apply String.eqb_eq].
Qed.

Lemma GetInstance_inv instanceID appID w i w' :
  GetInstance instanceID appID w = (Ok i, w') ->
  w' = issued (SelectInstance instanceID appID) w
  /\ hd false (faults w) = false
  /\ exists a, i = Instance.Build instanceID a
               /\ instance_application (db w) !! (instanceID, appID) = Some a.
Proof.
  intros H. wp_of H.
  repeat wp_step; try discriminate.
  intros [= <-]. eauto 10.
Qed.

(** ** The guards of the five branches *)

Section Guards.

Variable flatcarAppID : string.

Lemma guardComplete_spec appID etype result :
  guardComplete flatcarAppID appID etype result = true <->
  etype = EventUpdateComplete
  /\ (result = ResultSuccessReboot \/ (appID <> flatcarAppID /\ result = ResultSuccess)).
Proof.
  unfold guardComplete.
  rewrite andb_true_iff, orb_true_iff, andb_true_iff, negb_true_iff.
  rewrite !Z.eqb_eq, String.eqb_neq. tauto.
Qed.

(** At most one guard holds; the six ways they can come out. *)
Lemma guards_cases appID etype result :
  let g := (guardComplete flatcarAppID appID etype result,
            guardDownloadStarted etype result,
            guardDownloadFinished etype result,
            guardInstalled etype result,
            guardFailed result) in
  g = (true, false, false, false, false)
  \/ g = (false, true, false, false, false)
  \/ g = (false, false, true, false, false)
  \/ g = (false, false, false, true, false)
  \/ g = (false, false, false, false, true)
  \/ g = (false, false, false, false, false).
Proof.
  unfold guardComplete, guardDownloadStarted, guardDownloadFinished, guardInstalled,
    guardFailed.
  destruct (Z.eqb_spec result ResultFailed) as [->|];
    [cbn; rewrite !andb_false_r; tauto|].
  destruct (Z.eqb_spec result ResultSuccessReboot) as [->|];
    [cbn; rewrite !andb_false_r; destruct (etype =? EventUpdateComplete)%Z; cbn; tauto|].
  destruct (Z.eqb_spec result ResultSuccess) as [->|];
    [|cbn; rewrite !andb_false_r; tauto].
  rewrite !andb_true_r.
  destruct (Z.eqb_spec etype EventUpdateComplete) as [->|];
    [cbn; destruct (String.eqb appID flatcarAppID); cbn; tauto|].
  destruct (Z.eqb_spec etype EventUpdateDownloadStarted) as [->|]; [cbn; tauto|].
  destruct (Z.eqb_spec etype EventUpdateDownloadFinished) as [->|]; [cbn; tauto|].
  destruct (etype =? EventUpdateInstalled)%Z; cbn; tauto.
Qed.

End Guards.

(** ** The newest row *)

Lemma newest_spec (rows : list Event.t) :
  match newest rows with
  | Some e =>
      In e rows
      /\ forall e', In e' rows -> (Event.CreatedTs e' <= Event.CreatedTs e)%Z
  | None => rows = []
  end.
Proof.
  induction rows as [|x rest IH]; cbn; [reflexivity|].
  destruct (newest rest) as [e|].
  - destruct IH as [Hin Hmax].
    destruct (Z.ltb_spec (Event.CreatedTs x) (Event.CreatedTs e)).
    + split; [auto|]. intros e' [<-|H']; [lia | auto].
    + split; [auto|]. intros e' [<-|H']; [lia|]. specialize (Hmax e' H'). lia.
  - subst rest. split; [auto|]. intros e' [<-|[]]. lia.
Qed.

Lemma newest_last (rows : list Event.t) (e : Event.t) :
  (forall e', In e' rows -> (Event.CreatedTs e' < Event.CreatedTs e)%Z) ->
  newest (rows ++ [e]) = Some e.
Proof.
  induction rows as [|x rest IH]; intros H; cbn; [reflexivity|].
  rewrite IH by (intros; apply H; now right).
  assert (Event.CreatedTs x < Event.CreatedTs e)%Z as Hx by (apply H; now left).
  apply Z.ltb_lt in Hx. now rewrite Hx.
Qed.

Lemma eventMatches_spec instanceID appID timestamp e :
  eventMatches instanceID appID timestamp e = true <->
  Event.InstanceID e = instanceID /\ Event.ApplicationID e = appID
  /\ (Event.CreatedTs e <= timestamp)%Z.
Proof.
  unfold eventMatches.
  rewrite !andb_true_iff, !String.eqb_eq, Z.leb_le. tauto.
Qed.

Lemma filter_none {A} (f : A -> bool) (l : list A) :
  (forall x, In x l -> f x = false) -> List.filter f l = [].
Proof.
  induction l as [|x l IH]; intros H; cbn; [reflexivity|].
  rewrite (H x) by now left. apply IH. intros; apply H; now right.
Qed.

Section EventsFacts.

Variable flatcarAppID : string.
Variable updatesStats : Store -> Group.t -> UpdatesStats.

(** Case analysis on the guards of [triggerEventConsequences], once it is
    unfolded. *)
Ltac split_guards appID etype result :=
  let H := fresh "Hg" in
  destruct (guards_cases flatcarAppID appID etype result)
    as [H|[H|[H|[H|[H|H]]]]];
  cbv zeta in H; injection H as -> -> -> -> ->.

(** Consequence evaluation never touches the event table, the table of
    event types or the clock. *)
Lemma triggerEventConsequences_keeps_events
  w instanceID appID groupID version etype result :
  wp (triggerEventConsequences flatcarAppID updatesStats instanceID appID groupID
        version etype result)
     (fun _ w' => event (db w') = event (db w)
                  /\ now (db w') = now (db w)
                  /\ event_type (db w') = event_type (db w)) w.
Proof.
  unfold triggerEventConsequences.
  split_guards appID etype result; repeat wp_step; auto.
Qed.

(** Every statement of a consequence evaluation that fails shows: either
    it is logged inside, or it ends the evaluation and is returned. *)
Lemma triggerEventConsequences_accounts
  w instanceID appID groupID version etype result group :
  groups (db w) !! groupID = Some group ->
  wp (triggerEventConsequences flatcarAppID updatesStats instanceID appID groupID
        version etype result)
     (fun c w' =>
        exists js : list Stmt,
          journal w' = (journal w ++ js)%list
          /\ (length (logged w') + match c with Some _ => 1 | None => 0 end
              = length (logged w) + failures (length js) (faults w))%nat) w.
Proof.
  intros Hgroup. unfold triggerEventConsequences.
  split_guards appID etype result; repeat wp_step;
    (eexists; split; [rewrite <- ?app_assoc; reflexivity|]);
    cbn [length app failures hd tl];
    repeat match goal with H : hd false _ = _ |- _ => rewrite H; clear H end;
    rewrite ?length_app; cbn [length]; lia.
Qed.

(** C9.  At most one of the five branch guards holds for a given
    application, event type and result, and one consequence evaluation
    sends at most one statement that writes the instance's status,
    whatever the database does. *)
Theorem one_status_write_per_event
  (w : API) (instanceID appID groupID version : string) (etype result : Z) :
  (length (List.filter id
     [guardComplete flatcarAppID appID etype result;
      guardDownloadStarted etype result;
      guardDownloadFinished etype result;
      guardInstalled etype result;
      guardFailed result]) <= 1)%nat
  /\ exists js : list Stmt,
       journal (snd (triggerEventConsequences flatcarAppID updatesStats
                       instanceID appID groupID version etype result w))
       = (journal w ++ js)%list
       /\ (length (List.filter isStatusWrite js) <= 1)%nat.
Proof.
  split.
  - split_guards appID etype result; cbn; lia.
  - change (wp (triggerEventConsequences flatcarAppID updatesStats
                  instanceID appID groupID version etype result)
              (fun _ w' => exists js, journal w' = (journal w ++ js)%list
                 /\ (length (List.filter isStatusWrite js) <= 1)%nat) w).
    unfold triggerEventConsequences.
    split_guards appID etype result; repeat wp_step;
      (eexists; split; [rewrite <- ?app_assoc; reflexivity | cbn; lia]).
Qed.

(** C2.  Consequences of an [EventUpdateComplete] with an acceptable
    success result ([ResultSuccessReboot], or [ResultSuccess] when the
    application is not Flatcar), the database serving every statement:
    the instance's status becomes [Complete], the stats are then computed
    on the tables as they stand after that write, and when
    [UpdatesToCurrentVersionSucceeded] equals [TotalInstances] the group's
    [RolloutInProgress] is cleared and a rollout-finished/success entry is
    appended; nothing else changes.  The test has no guard on
    [TotalInstances]: a group counted with zero instances and zero
    successes passes it.  The status is stated on the row itself: a
    binding that exists has status [Complete] afterwards and is otherwise
    as it was. *)
Theorem update_complete_converges
  (w : API) (instanceID appID groupID version : string) (result : Z) (group : Group.t) :
  faults w = [] ->
  groups (db w) !! groupID = Some group ->
  result = ResultSuccessReboot \/ (appID <> flatcarAppID /\ result = ResultSuccess) ->
  let completed := writeInstanceStatus instanceID appID InstanceStatusComplete (db w) in
  let stats := updatesStats completed group in
  let finished :=
    appendActivity
      (Activity.Build activityRolloutFinished activitySuccess version appID groupID None)
      (writeGroup (setRollout false) groupID completed) in
  let run := triggerEventConsequences flatcarAppID updatesStats
               instanceID appID groupID version EventUpdateComplete result w in
  fst run = None
  /\ instance_application (db (snd run)) !! (instanceID, appID)
     = setStatus InstanceStatusComplete <$> instance_application (db w) !! (instanceID, appID)
  /\ db (snd run) = (if (UpdatesToCurrentVersionSucceeded stats =? TotalInstances stats)%Z
                     then finished else completed)
  /\ (TotalInstances stats = 0%Z -> UpdatesToCurrentVersionSucceeded stats = 0%Z ->
      db (snd run) = finished)
  /\ journal (snd run) =
     (journal w ++
      [SelectGroup groupID;
       UpdateInstanceStatus instanceID appID InstanceStatusComplete;
       SelectUpdatesStats (Group.ID group)] ++
      (if (UpdatesToCurrentVersionSucceeded stats =? TotalInstances stats)%Z
       then [UpdateRolloutInProgress groupID false;
             InsertActivity (Activity.Build activityRolloutFinished activitySuccess
                               version appID groupID None)]
       else []))%list
  /\ (forall a : InstanceApplication.t,
        instance_application (db w) !! (instanceID, appID) = Some a ->
        instance_application (db (snd run)) !! (instanceID, appID)
        = Some (InstanceApplication.Build
                  (InstanceApplication.ApplicationID a) (InstanceApplication.GroupID a)
                  InstanceStatusComplete
                  (InstanceApplication.UpdateInProgress a)
                  (InstanceApplication.LastUpdateVersion a))
        /\ InstanceApplication.Status
             <$> instance_application (db (snd run)) !! (instanceID, appID)
           = Some InstanceStatusComplete).
Proof.
  intros Hf Hgroup Hres completed stats finished run.
  assert (HC : guardComplete flatcarAppID appID EventUpdateComplete result = true)
    by (apply guardComplete_spec; auto).
  assert (HS : guardDownloadStarted EventUpdateComplete result = false) by reflexivity.
  assert (HD : guardDownloadFinished EventUpdateComplete result = false) by reflexivity.
  assert (HI : guardInstalled EventUpdateComplete result = false) by reflexivity.
  assert (HF : guardFailed result = false) by (destruct Hres as [->|[_ ->]]; reflexivity).
  subst completed stats finished run.
  no_faults w Hf. apply wp_fst_snd. unfold triggerEventConsequences.
  assert (Hrow : forall (d : Store) (a : InstanceApplication.t),
             instance_application d !! (instanceID, appID) = Some a ->
             alter (setStatus InstanceStatusComplete) (instanceID, appID)
               (instance_application d) !! (instanceID, appID)
             = Some (InstanceApplication.Build
                       (InstanceApplication.ApplicationID a)
                       (InstanceApplication.GroupID a)
                       InstanceStatusComplete
                       (InstanceApplication.UpdateInProgress a)
                       (InstanceApplication.LastUpdateVersion a)))
    by (intros d a Ha; rewrite lookup_alter_eq, Ha; reflexivity).
  repeat wp_step.
  - split; [reflexivity|]. split; [cbn; apply lookup_alter_eq|].
    split; [reflexivity|]. split; [reflexivity|].
    split; [rewrite <- ?app_assoc; reflexivity|].
    intros a Ha. cbn. rewrite (Hrow _ a Ha). split; reflexivity.
  - split; [reflexivity|]. split; [cbn; apply lookup_alter_eq|].
    split; [reflexivity|].
    split; [intros H0 H1; rewrite H0, H1 in *; discriminate|].
    split; [rewrite <- ?app_assoc; reflexivity|].
    intros a Ha. cbn. rewrite (Hrow _ a Ha). split; reflexivity.
Qed.

(** C3.  Consequences of an event with [ResultFailed], of any type, the
    database serving every statement: the instance's status becomes
    [Error] and an instance-update-failed entry is appended; when
    [disableUpdatesOnFailedRollout] is set the stats are then computed,
    and exactly when [UpdatesToCurrentVersionAttempted] is 1 the group's
    updates are disabled, its [RolloutInProgress] is cleared and a
    rollout-failed entry is appended.  Nothing else changes. *)
Theorem failed_event_halts_first_attempt
  (w : API) (instanceID appID groupID version : string) (etype : Z) (group : Group.t) :
  faults w = [] ->
  groups (db w) !! groupID = Some group ->
  let instanceFailed :=
    Activity.Build activityInstanceUpdateFailed activityError version appID groupID
      (Some instanceID) in
  let rolloutFailed :=
    Activity.Build activityRolloutFailed activityError version appID groupID None in
  let failed :=
    appendActivity instanceFailed
      (writeInstanceStatus instanceID appID InstanceStatusError (db w)) in
  let stats := updatesStats failed group in
  let halted :=
    appendActivity rolloutFailed
      (writeGroup (setRollout false) groupID
         (writeGroup (setUpdatesEnabled false) groupID failed)) in
  let trips :=
    disableUpdatesOnFailedRollout w && (UpdatesToCurrentVersionAttempted stats =? 1)%Z in
  let run := triggerEventConsequences flatcarAppID updatesStats
               instanceID appID groupID version etype ResultFailed w in
  fst run = None
  /\ instance_application (db (snd run)) !! (instanceID, appID)
     = setStatus InstanceStatusError <$> instance_application (db w) !! (instanceID, appID)
  /\ db (snd run) = (if trips then halted else failed)
  /\ journal (snd run) =
     (journal w ++
      [SelectGroup groupID;
       UpdateInstanceStatus instanceID appID InstanceStatusError;
       InsertActivity instanceFailed] ++
      (if disableUpdatesOnFailedRollout w then [SelectUpdatesStats (Group.ID group)] else []) ++
      (if trips
       then [UpdatePolicyUpdatesEnabled groupID false;
             UpdateRolloutInProgress groupID false;
             InsertActivity rolloutFailed]
       else []))%list.
Proof.
  intros Hf Hgroup instanceFailed rolloutFailed failed stats halted trips run.
  assert (HC : guardComplete flatcarAppID appID etype ResultFailed = false)
    by (unfold guardComplete; cbn; now rewrite !andb_false_r).
  assert (HS : guardDownloadStarted etype ResultFailed = false) by apply andb_false_r.
  assert (HD : guardDownloadFinished etype ResultFailed = false) by apply andb_false_r.
  assert (HI : guardInstalled etype ResultFailed = false) by apply andb_false_r.
  assert (HF : guardFailed ResultFailed = true) by reflexivity.
  subst instanceFailed rolloutFailed failed stats halted trips run.
  no_faults w Hf. apply wp_fst_snd. unfold triggerEventConsequences.
  repeat wp_step;
    (repeat split; try (rewrite <- ?app_assoc; reflexivity);
     cbn; apply lookup_alter_eq).
Qed.

(** C5.  For [EventUpdateComplete], the completing branch is taken for
    the Flatcar application exactly when the result is
    [ResultSuccessReboot], and for any other application exactly when it
    is [ResultSuccessReboot] or [ResultSuccess].  A plain [ResultSuccess]
    from a Flatcar instance has no consequence at all: after the group
    lookup no statement is sent (no status write, no stats query) and no
    table changes, whatever the database does; from an instance of
    another application it sets the status to [Complete] and runs the
    stats query of the convergence check. *)
Theorem success_reboot_completes_flatcar :
  (forall result : Z,
      guardComplete flatcarAppID flatcarAppID EventUpdateComplete result = true
      <-> result = ResultSuccessReboot)
  /\ (forall (appID : string) (result : Z),
        appID <> flatcarAppID ->
        guardComplete flatcarAppID appID EventUpdateComplete result = true
        <-> (result = ResultSuccessReboot \/ result = ResultSuccess))
  /\ (forall (w : API) (instanceID groupID version : string),
        let run := triggerEventConsequences flatcarAppID updatesStats
                     instanceID flatcarAppID groupID version
                     EventUpdateComplete ResultSuccess w in
        db (snd run) = db w
        /\ journal (snd run) = (journal w ++ [SelectGroup groupID])%list)
  /\ (forall (w : API) (instanceID appID groupID version : string) (group : Group.t),
        appID <> flatcarAppID ->
        faults w = [] ->
        groups (db w) !! groupID = Some group ->
        let run := triggerEventConsequences flatcarAppID updatesStats
                     instanceID appID groupID version
                     EventUpdateComplete ResultSuccess w in
        instance_application (db (snd run)) !! (instanceID, appID)
        = setStatus InstanceStatusComplete
            <$> instance_application (db w) !! (instanceID, appID)
        /\ In (UpdateInstanceStatus instanceID appID InstanceStatusComplete)
             (journal (snd run))
        /\ In (SelectUpdatesStats (Group.ID group)) (journal (snd run))).
Proof.
  split; [|split; [|split]].
  - intros result. rewrite guardComplete_spec. split.
    + intros [_ [H|[H _]]]; [assumption | now destruct H].
    + intros ->. auto.
  - intros appID result Hne. rewrite guardComplete_spec. tauto.
  - intros w instanceID groupID version.
    assert (HC : guardComplete flatcarAppID flatcarAppID EventUpdateComplete ResultSuccess
                 = false)
      by (unfold guardComplete; now rewrite String.eqb_refl).
    change (wp (triggerEventConsequences flatcarAppID updatesStats instanceID
                  flatcarAppID groupID version EventUpdateComplete ResultSuccess)
              (fun _ w' => db w' = db w
                           /\ journal w' = (journal w ++ [SelectGroup groupID])%list) w).
    unfold triggerEventConsequences.
    change (guardDownloadStarted EventUpdateComplete ResultSuccess) with false.
    change (guardDownloadFinished EventUpdateComplete ResultSuccess) with false.
    change (guardInstalled EventUpdateComplete ResultSuccess) with false.
    change (guardFailed ResultSuccess) with false.
    repeat wp_step; auto.
  - intros w instanceID appID groupID version group Hne Hf Hgroup.
    assert (HC : guardComplete flatcarAppID appID EventUpdateComplete ResultSuccess = true)
      by (apply guardComplete_spec; auto).
    change (wp (triggerEventConsequences flatcarAppID updatesStats instanceID
                  appID groupID version EventUpdateComplete ResultSuccess)
              (fun _ w' =>
                 instance_application (db w') !! (instanceID, appID)
                 = setStatus InstanceStatusComplete
                     <$> instance_application (db w) !! (instanceID, appID)
                 /\ In (UpdateInstanceStatus instanceID appID InstanceStatusComplete)
                      (journal w')
                 /\ In (SelectUpdatesStats (Group.ID group)) (journal w')) w).
    no_faults w Hf. unfold triggerEventConsequences.
    change (guardDownloadStarted EventUpdateComplete ResultSuccess) with false.
    change (guardDownloadFinished EventUpdateComplete ResultSuccess) with false.
    change (guardInstalled EventUpdateComplete ResultSuccess) with false.
    change (guardFailed ResultSuccess) with false.
    repeat wp_step;
      (split; [cbn; apply lookup_alter_eq|]);
      rewrite <- ?app_assoc; split; apply in_or_app; right; cbn; auto.
Qed.

(** ** Registration *)

(** C4.  An event for a known instance, bound to the resolved
    application, whose binding has no update in progress is answered
    [ErrNoUpdateInProgress]; the call has only read (the group, then the
    instance): no table has changed and nothing was logged. *)
Theorem no_update_in_progress_drops_event
  (w w1 w2 : API) (instanceID appID groupID appID' groupID' : string)
  (etype eresult : Z) (previousVersion errorCode : string) (instance : Instance.t) :
  validateApplicationAndGroup appID groupID w = (Ok (appID', groupID'), w1) ->
  GetInstance instanceID appID' w1 = (Ok instance, w2) ->
  InstanceApplication.ApplicationID (Instance.Application instance) = appID' ->
  InstanceApplication.UpdateInProgress (Instance.Application instance) = false ->
  RegisterEvent flatcarAppID updatesStats instanceID appID groupID etype eresult
      previousVersion errorCode w
    = (Some ErrNoUpdateInProgress, w2)
  /\ db w2 = db w
  /\ logged w2 = logged w
  /\ journal w2 = (journal w ++ [SelectGroup groupID; SelectInstance instanceID appID'])%list.
Proof.
  intros Hv Hi Happ Hup. split.
  - unfold RegisterEvent, bind. rewrite Hv, Hi, Happ, Hup.
    now rewrite String.eqb_refl.
  - apply validateApplicationAndGroup_inv in Hv as (-> & -> & -> & _).
    apply GetInstance_inv in Hi as (-> & _). simpl_state.
    now rewrite <- app_assoc.
Qed.

(** C1, as the code has it.  The Flatcar completion that is ignored: the
    call has passed validation (the group belongs to the application, the
    instance is known and bound to it, and its binding has an update in
    progress), the application is Flatcar, the event is
    [EventUpdateComplete] with [ResultSuccessReboot] and the previous
    version is empty or 0.0.0.0.  Then the call answers
    [ErrFlatcarEventIgnored], whatever the database does; the one
    statement it sends after the two reads sets the status to
    [Undefined], and when that statement is served the binding has status
    [Undefined] and nothing else has changed; when it fails, nothing has
    changed and the failure is logged.  In both cases no event row is
    inserted and no group or activity row is touched. *)
Theorem flatcar_stale_completion_ignored
  (w w1 w2 : API) (instanceID appID groupID appID' groupID' : string)
  (previousVersion errorCode : string) (instance : Instance.t)
  (r : option error) (w' : API) :
  validateApplicationAndGroup appID groupID w = (Ok (appID', groupID'), w1) ->
  GetInstance instanceID appID' w1 = (Ok instance, w2) ->
  InstanceApplication.ApplicationID (Instance.Application instance) = appID' ->
  InstanceApplication.UpdateInProgress (Instance.Application instance) = true ->
  appID' = flatcarAppID ->
  previousVersion = "" \/ previousVersion = "0.0.0.0" ->
  RegisterEvent flatcarAppID updatesStats instanceID appID groupID
      EventUpdateComplete ResultSuccessReboot previousVersion errorCode w = (r, w') ->
  r = Some ErrFlatcarEventIgnored
  /\ journal w' =
     (journal w ++ [SelectGroup groupID; SelectInstance instanceID appID';
                    UpdateInstanceStatus instanceID appID' InstanceStatusUndefined])%list
  /\ db w' = (if hd false (faults w2) then db w
              else writeInstanceStatus instanceID appID' InstanceStatusUndefined (db w))
  /\ logged w' =
     (if hd false (faults w2)
      then logged w ++ [(ErrorLevel, "RegisterEvent - could not update instance status")]
      else logged w)%list
  /\ (hd false (faults w2) = false ->
      instance_application (db w') !! (instanceID, appID')
      = Some (setStatus InstanceStatusUndefined (Instance.Application instance)))
  /\ event (db w') = event (db w)
  /\ groups (db w') = groups (db w)
  /\ activity (db w') = activity (db w).
Proof.
  intros Hv Hi Happ Hup Hfl Hpv Hrun.
  pose proof (validateApplicationAndGroup_inv _ _ _ _ _ _ Hv) as (-> & -> & -> & _).
  pose proof (GetInstance_inv _ _ _ _ _ Hi) as (-> & _ & a & -> & Ha).
  simpl_state.
  assert (Hb : negb (String.eqb (InstanceApplication.ApplicationID a) appID) = false)
    by (rewrite Happ, String.eqb_refl; reflexivity).
  assert (Hu : negb (InstanceApplication.UpdateInProgress a) = false)
    by (rewrite Hup; reflexivity).
  assert (Hign : flatcarIgnored flatcarAppID appID EventUpdateComplete
                   ResultSuccessReboot previousVersion = true).
  { unfold flatcarIgnored. rewrite Hfl, String.eqb_refl. cbn.
    destruct Hpv as [-> | ->]; reflexivity. }
  wp_of Hrun. unfold RegisterEvent.
  repeat wp_step; intros <-; rewrite ?Happ;
    (repeat split; try (rewrite <- ?app_assoc; reflexivity); try discriminate).
  intros _. cbn. rewrite lookup_alter_eq, Ha. reflexivity.
Qed.


(** The three ways a registration ends: rejected with nothing written;
    ignored, with at most the instance's status written; or recorded, the
    row appended and the consequences evaluated, their error (if any)
    logged and the answer [nil]. *)
Lemma RegisterEvent_cases
  (w : API) (instanceID appID groupID : string) (etype eresult : Z)
  (previousVersion errorCode : string) (r : option error) (w' : API) :
  RegisterEvent flatcarAppID updatesStats instanceID appID groupID etype eresult
      previousVersion errorCode w = (r, w') ->
  (r <> None /\ r <> Some ErrFlatcarEventIgnored /\ db w' = db w)
  \/ (r = Some ErrFlatcarEventIgnored /\ event (db w') = event (db w))
  \/ (r = None
      /\ exists (eventTypeID : Z) (a : InstanceApplication.t) (group : Group.t),
          instance_application (db w) !! (instanceID, appID) = Some a
          /\ groups (db w) !! groupID = Some group
          /\ findEventType etype eresult (event_type (db w)) = Some eventTypeID
          /\ let w1 :=
               stored (appendEvent (newEventRow (db w) eventTypeID instanceID appID
                                      previousVersion errorCode))
                 (issued (InsertEvent eventTypeID instanceID appID
                            previousVersion errorCode)
                    (issued (SelectEventType etype eresult)
                       (issued (SelectInstance instanceID appID)
                          (issued (SelectGroup groupID) w)))) in
             let (c, w2) :=
               triggerEventConsequences flatcarAppID updatesStats instanceID appID
                 groupID (null.Str (InstanceApplication.LastUpdateVersion a))
                 etype eresult w1 in
             w' = snd (logIfErr c "RegisterEvent - could not trigger event consequences" w2)).
Proof.
  intros Hrun. wp_of Hrun. unfold RegisterEvent.
  repeat wp_step;
    try (intros <-; first [ left; repeat split; (discriminate || reflexivity)
                          | right; left; split; reflexivity ]).
  all: apply wp_any; intros c w2 Htrig; repeat wp_step; intros <-;
    right; right; (split; [reflexivity|]);
    eexists _, _, _; (split; [reflexivity|]); (split; [reflexivity|]);
    (split; [reflexivity|]); cbv zeta; rewrite Htrig; reflexivity.
Qed.

(** C6.  When a registration has changed the event table, it answers
    [nil], whatever the database does afterwards: the row was appended, the
    consequences were evaluated from that state, and what they returned (an
    error of the group lookup or of the stats query) was logged, not
    returned.  Every statement sent after the insert that failed has left
    one error line in the log. *)
Theorem recorded_event_reports_success
  (w : API) (instanceID appID groupID : string) (etype eresult : Z)
  (previousVersion errorCode : string) (r : option error) (w' : API) :
  RegisterEvent flatcarAppID updatesStats instanceID appID groupID etype eresult
      previousVersion errorCode w = (r, w') ->
  event (db w') <> event (db w) ->
  r = None
  /\ exists (eventTypeID : Z) (a : InstanceApplication.t),
      instance_application (db w) !! (instanceID, appID) = Some a
      /\ let w1 :=
           stored (appendEvent (newEventRow (db w) eventTypeID instanceID appID
                                  previousVersion errorCode))
             (issued (InsertEvent eventTypeID instanceID appID previousVersion errorCode)
                (issued (SelectEventType etype eresult)
                   (issued (SelectInstance instanceID appID)
                      (issued (SelectGroup groupID) w)))) in
         let (c, w2) :=
           triggerEventConsequences flatcarAppID updatesStats instanceID appID
             groupID (null.Str (InstanceApplication.LastUpdateVersion a))
             etype eresult w1 in
         w' = snd (logIfErr c "RegisterEvent - could not trigger event consequences" w2)
         /\ exists js : list Stmt,
             journal w' = (journal w1 ++ js)%list
             /\ (length (logged w')
                 = length (logged w) + failures (length js) (faults w1))%nat.
Proof.
  intros Hrun Hev.
  destruct (RegisterEvent_cases _ _ _ _ _ _ _ _ _ _ Hrun)
    as [(_ & _ & Hdb) | [(_ & He) | (-> & z & a & group & Ha & Hgroup & _ & H)]].
  - now rewrite Hdb in Hev.
  - contradiction.
  - split; [reflexivity|]. exists z, a. split; [assumption|].
    cbv zeta in H |- *.
    match goal with
    | |- context [triggerEventConsequences ?f ?u ?i ?ap ?g ?v ?t ?res ?w1] =>
        pose proof (triggerEventConsequences_accounts w1 i ap g v t res group Hgroup) as Hacc;
        unfold wp in Hacc;
        destruct (triggerEventConsequences f u i ap g v t res w1) as [c w2]
    end.
    cbn [fst snd] in Hacc. destruct Hacc as (js & Hj & Hl).
    split; [assumption|]. subst w'. exists js.
    simpl_state. destruct c; cbn; rewrite ?length_app; cbn; split; auto; lia.
Qed.


(** What a recorded registration leaves in the event table. *)
Lemma RegisterEvent_recorded
  (w : API) (instanceID appID groupID : string) (etype eresult : Z)
  (previousVersion errorCode : string) (w' : API) :
  RegisterEvent flatcarAppID updatesStats instanceID appID groupID etype eresult
      previousVersion errorCode w = (None, w') ->
  exists eventTypeID,
    event (db w') =
      (event (db w) ++ [newEventRow (db w) eventTypeID instanceID appID
                          previousVersion errorCode])%list
    /\ now (db w') = (now (db w) + 1)%Z.
Proof.
  intros Hrun.
  destruct (RegisterEvent_cases _ _ _ _ _ _ _ _ _ _ Hrun)
    as [(H & _) | [(H & _) | (_ & z & a & group & _ & _ & _ & H)]]; try congruence.
  exists z. cbv zeta in H.
  match type of H with
  | context [triggerEventConsequences ?f ?u ?i ?a ?g ?v ?t ?r ?w1] =>
      pose proof (triggerEventConsequences_keeps_events w1 i a g v t r) as Hk;
      unfold wp in Hk;
      destruct (triggerEventConsequences f u i a g v t r w1) as [c w2]
  end.
  cbn [fst snd] in Hk. destruct Hk as (He & Hn & _). subst w'.
  destruct c; cbn; rewrite He, Hn; auto.
Qed.

(** The clock stays ahead of the stored events. *)
Lemma RegisterEvent_stampsBeforeNow
  (w : API) (instanceID appID groupID : string) (etype eresult : Z)
  (previousVersion errorCode : string) (r : option error) (w' : API) :
  RegisterEvent flatcarAppID updatesStats instanceID appID groupID etype eresult
      previousVersion errorCode w = (r, w') ->
  stampsBeforeNow (db w) -> stampsBeforeNow (db w').
Proof.
  intros Hrun Hinv. destruct r as [e|].
  - destruct (RegisterEvent_cases _ _ _ _ _ _ _ _ _ _ Hrun)
      as [(_ & _ & Hdb) | [(_ & He) | (H & _)]]; [now rewrite Hdb | | discriminate].
    revert He. wp_of Hrun. unfold RegisterEvent.
    repeat wp_step; try (intros _ _; exact Hinv).
    all: try (apply wp_any; intros c w2 _; repeat wp_step); discriminate.
  - destruct (RegisterEvent_recorded _ _ _ _ _ _ _ _ _ Hrun) as (z & He & Hn).
    intros e. rewrite He, Hn, in_app_iff. intros [H|[<-|[]]].
    + specialize (Hinv e H). lia.
    + cbn. lia.
Qed.

(** C8.  Round trip of the error code.  A registration that is recorded
    appends one row, stamped with the clock of that moment and carrying
    the error code given.  In any later state of the event table (more
    rows appended), a [GetEvent] that the database serves, for the same
    instance and application and a timestamp not before the row's, returns
    that error code, provided no event appended after it for this instance
    and application is stamped at or before the timestamp.  The clock is
    taken to be ahead of the rows stored before the registration. *)
Theorem registered_error_code_round_trip
  (w : API) (instanceID appID groupID : string) (etype eresult : Z)
  (previousVersion errorCode : string) (w' q : API)
  (later : list Event.t) (timestamp : Z) :
  RegisterEvent flatcarAppID updatesStats instanceID appID groupID etype eresult
      previousVersion errorCode w = (None, w') ->
  stampsBeforeNow (db w) ->
  event (db q) = (event (db w') ++ later)%list ->
  (forall e, In e later ->
     Event.InstanceID e = instanceID -> Event.ApplicationID e = appID ->
     (timestamp < Event.CreatedTs e)%Z) ->
  (now (db w) <= timestamp)%Z ->
  hd false (faults q) = false ->
  (exists e, event (db w') = (event (db w) ++ [e])%list
             /\ Event.CreatedTs e = now (db w)
             /\ Event.InstanceID e = instanceID
             /\ Event.ApplicationID e = appID
             /\ Event.ErrorCode e = null.NewString errorCode true)
  /\ fst (GetEvent instanceID appID timestamp q) = (null.NewString errorCode true, None).
Proof.
  intros Hrun Hinv Hq Hlater Hts Hfault.
  destruct (RegisterEvent_recorded _ _ _ _ _ _ _ _ _ Hrun) as (z & He & _).
  split; [eexists; split; [exact He | cbn; auto]|].
  change (wp (GetEvent instanceID appID timestamp)
            (fun r _ => r = (null.NewString errorCode true, None)) q).
  unfold GetEvent. wp_step. wp_step. wp_step. wp_step. wp_step.
  rewrite Hq, He, !List.filter_app.
  rewrite (filter_none _ later).
  2:{ intros e Hin. apply not_true_is_false. rewrite eventMatches_spec.
      intros (Hi & Ha & Hle). specialize (Hlater e Hin Hi Ha). lia. }
  rewrite app_nil_r. cbn [List.filter].
  replace (eventMatches instanceID appID timestamp
             (newEventRow (db w) z instanceID appID previousVersion errorCode))
    with true
    by (symmetry; apply eventMatches_spec; cbn; auto).
  rewrite newest_last; [reflexivity|].
  intros e' Hin. apply List.filter_In in Hin as [Hin _].
  apply Hinv in Hin. cbn. assumption.
Qed.

(** C10.  [GetEvent] only reads.  When it returns no error, the code it
    returns is that of an event of the given instance and application,
    created at or before the timestamp, such that no other such event is
    more recent.  When it returns an error, the value returned with it is
    the placeholder, and either the database failed or there is no such
    event.  So: with no such event, it returns an error. *)
Theorem GetEvent_latest_error_code
  (w : API) (instanceID appID : string) (timestamp : Z) :
  let '(code, err, w') := GetEvent instanceID appID timestamp w in
  let eligible (e : Event.t) : Prop :=
    In e (event (db w))
    /\ Event.InstanceID e = instanceID /\ Event.ApplicationID e = appID
    /\ (Event.CreatedTs e <= timestamp)%Z in
  db w' = db w
  /\ match err with
     | None =>
         exists e, eligible e
                   /\ (forall e', eligible e' ->
                         (Event.CreatedTs e' <= Event.CreatedTs e)%Z)
                   /\ code = Event.ErrorCode e
     | Some _ =>
         code = null.NewString "" true
         /\ (hd false (faults w) = true \/ forall e, ~ eligible e)
     end
  /\ ((forall e, ~ eligible e) -> err <> None).
Proof.
  apply wp_let.
  unfold GetEvent. wp_step. wp_step. wp_step.
  - wp_step. cbv zeta. split; [reflexivity|]. split; [auto|]. discriminate.
  - wp_step. wp_step.
    pose proof (newest_spec (List.filter (eventMatches instanceID appID timestamp)
                               (event (db w)))) as Hn.
    destruct (newest (List.filter (eventMatches instanceID appID timestamp)
                        (event (db w)))) as [e0|];
      cbv beta iota; wp_step; cbv zeta; (split; [reflexivity|]).
    + destruct Hn as [Hin Hmax].
      apply List.filter_In in Hin as [Hin Hm]. apply eventMatches_spec in Hm.
      split.
      * exists e0. split; [tauto|]. split; [|reflexivity].
        intros e' (Hin' & Hm'). apply Hmax, List.filter_In. split; [assumption|].
        now apply eventMatches_spec.
      * intros Hno. exfalso. apply (Hno e0). tauto.
    + assert (forall e, ~ (In e (event (db w))
                           /\ Event.InstanceID e = instanceID
                           /\ Event.ApplicationID e = appID
                           /\ (Event.CreatedTs e <= timestamp)%Z)) as Hno.
      { intros e (Hin & Hm). apply eventMatches_spec in Hm.
        assert (In e (List.filter (eventMatches instanceID appID timestamp)
                        (event (db w)))) as Hf by (apply List.filter_In; auto).
        rewrite Hn in Hf. destruct Hf. }
      split; [auto|]. discriminate.
Qed.

End EventsFacts.

(** ** The theorems at work on the concrete database *)

Example sample_stats_stable :
  specUpdatesStats Sample.store (Group.Build "stable" Sample.flatcar "2.0.0" true true)
  = {| TotalInstances := 2; UpdatesToCurrentVersionAttempted := 2;
       UpdatesToCurrentVersionSucceeded := 0 |}.
Proof. vm_compute. reflexivity. Qed.

Example sample_event_types :
  findEventType EventUpdateComplete ResultSuccessReboot Sample.eventTypes = Some 3%Z
  /\ findEventType EventUpdateDownloadStarted ResultFailed Sample.eventTypes = None.
Proof. split; reflexivity. Qed.

Example newest_of_equal_stamps :
  let row (id stamp : Z) (code : string) :=
    Event.Build id stamp (null.NewString "" true) (null.NewString code true)
      "i1" Sample.flatcar 4 in
  newest [row 1%Z 5%Z "a"; row 2%Z 7%Z "b"; row 3%Z 7%Z "c"; row 4%Z 6%Z "d"]
  = Some (row 2%Z 7%Z "b").
Proof. reflexivity. Qed.

Example sample_download_started :
  let run := RegisterEvent Sample.flatcar specUpdatesStats "i1" Sample.flatcar "stable"
               EventUpdateDownloadStarted ResultSuccess "1.0.0" "" (Sample.api false []) in
  fst run = None
  /\ InstanceApplication.Status
       <$> instance_application (db (snd run)) !! ("i1", Sample.flatcar)
     = Some InstanceStatusDownloading
  /\ length (event (db (snd run))) = 1%nat.
Proof. vm_compute. auto. Qed.

(** C1 as stated fails: a Flatcar instance with no update in progress that
    reports completion after a reboot, with an empty previous version, is
    answered [ErrNoUpdateInProgress] and keeps its status. *)
Lemma flatcar_completion_without_update_in_progress :
  let run := RegisterEvent Sample.flatcar specUpdatesStats "i2" Sample.flatcar "stable"
               EventUpdateComplete ResultSuccessReboot "" "" (Sample.api false []) in
  InstanceApplication.UpdateInProgress
    <$> instance_application Sample.store !! ("i2", Sample.flatcar) = Some false
  /\ fst run = Some ErrNoUpdateInProgress
  /\ fst run <> Some ErrFlatcarEventIgnored
  /\ InstanceApplication.Status
       <$> instance_application (db (snd run)) !! ("i2", Sample.flatcar)
     = Some InstanceStatusInstalled.
Proof. vm_compute. repeat split; discriminate. Qed.

Lemma flatcar_stale_completion_ignored_witness :
  let run := RegisterEvent Sample.flatcar specUpdatesStats "i1" Sample.flatcar "stable"
               EventUpdateComplete ResultSuccessReboot "0.0.0.0" "" (Sample.api false []) in
  fst run = Some ErrFlatcarEventIgnored
  /\ InstanceApplication.Status
       <$> instance_application (db (snd run)) !! ("i1", Sample.flatcar)
     = Some InstanceStatusUndefined
  /\ event (db (snd run)) = [].
Proof.
  intros run.
  destruct (flatcar_stale_completion_ignored Sample.flatcar specUpdatesStats
              (Sample.api false [])
              (issued (SelectGroup "stable") (Sample.api false []))
              (issued (SelectInstance "i1" Sample.flatcar)
                 (issued (SelectGroup "stable") (Sample.api false [])))
              "i1" Sample.flatcar "stable" Sample.flatcar "stable" "0.0.0.0" ""
              (Instance.Build "i1"
                 (Sample.binding Sample.flatcar "stable" InstanceStatusDownloading true))
              (fst run) (snd run))
    as (Hr & _ & _ & _ & Hst & Hev & _).
  - reflexivity.
  - reflexivity.
  - reflexivity.
  - reflexivity.
  - reflexivity.
  - right; reflexivity.
  - apply surjective_pairing.
  - split; [exact Hr|]. split.
    + rewrite Hst by reflexivity. reflexivity.
    + rewrite Hev. reflexivity.
Defined.

Lemma update_complete_converges_witness :
  let run := triggerEventConsequences Sample.flatcar specUpdatesStats
               "i1" Sample.flatcar "empty" "2.0.0"
               EventUpdateComplete ResultSuccessReboot (Sample.api false []) in
  specUpdatesStats
    (writeInstanceStatus "i1" Sample.flatcar InstanceStatusComplete Sample.store)
    (Group.Build "empty" Sample.flatcar "2.0.0" true true)
  = {| TotalInstances := 0; UpdatesToCurrentVersionAttempted := 0;
       UpdatesToCurrentVersionSucceeded := 0 |}
  /\ InstanceApplication.Status
       <$> instance_application Sample.store !! ("i1", Sample.flatcar)
     = Some InstanceStatusDownloading
  /\ fst run = None
  /\ InstanceApplication.Status
       <$> instance_application (db (snd run)) !! ("i1", Sample.flatcar)
     = Some InstanceStatusComplete
  /\ instance_application (db (snd run)) !! ("i1", Sample.flatcar)
     = Some (Sample.binding Sample.flatcar "stable" InstanceStatusComplete true)
  /\ Group.RolloutInProgress <$> groups (db (snd run)) !! "empty" = Some false
  /\ activity (db (snd run))
     = [Activity.Build activityRolloutFinished activitySuccess "2.0.0"
          Sample.flatcar "empty" None].
Proof.
  intros run. split; [vm_compute; reflexivity|]. split; [reflexivity|].
  destruct (update_complete_converges Sample.flatcar specUpdatesStats
              (Sample.api false []) "i1" Sample.flatcar "empty" "2.0.0"
              ResultSuccessReboot (Group.Build "empty" Sample.flatcar "2.0.0" true true)
              eq_refl eq_refl (or_introl eq_refl))
    as (Hr & _ & _ & Hdb & _ & Hrow).
  destruct (Hrow (Sample.binding Sample.flatcar "stable" InstanceStatusDownloading true)
              eq_refl) as [Hb Hst].
  split; [exact Hr|]. split; [exact Hst|]. split; [exact Hb|].
  unfold run. rewrite Hdb by (vm_compute; reflexivity). split; reflexivity.
Defined.

Lemma failed_event_halts_first_attempt_witness :
  let run := triggerEventConsequences Sample.flatcar specUpdatesStats
               "i3" Sample.otherApp "prod" "2.0.0"
               EventUpdateComplete ResultFailed (Sample.api true []) in
  fst run = None
  /\ InstanceApplication.Status
       <$> instance_application (db (snd run)) !! ("i3", Sample.otherApp)
     = Some InstanceStatusError
  /\ groups (db (snd run)) !! "prod"
     = Some (Group.Build "prod" Sample.otherApp "2.0.0" false false)
  /\ Activity.Class <$> activity (db (snd run))
     = [activityInstanceUpdateFailed; activityRolloutFailed].
Proof.
  intros run.
  destruct (failed_event_halts_first_attempt Sample.flatcar specUpdatesStats
              (Sample.api true []) "i3" Sample.otherApp "prod" "2.0.0"
              EventUpdateComplete (Group.Build "prod" Sample.otherApp "2.0.0" true true)
              eq_refl eq_refl)
    as (Hr & _ & Hdb & _).
  split; [exact Hr|].
  unfold run. rewrite Hdb.
  replace (UpdatesToCurrentVersionAttempted
             (specUpdatesStats
                (appendActivity
                   (Activity.Build activityInstanceUpdateFailed activityError "2.0.0"
                      Sample.otherApp "prod" (Some "i3"))
                   (writeInstanceStatus "i3" Sample.otherApp InstanceStatusError
                      (db (Sample.api true []))))
                (Group.Build "prod" Sample.otherApp "2.0.0" true true)))
    with 1%Z by (vm_compute; reflexivity).
  repeat split; reflexivity.
Defined.

Lemma no_update_in_progress_drops_event_witness :
  let w := Sample.api false [] in
  let w2 := issued (SelectInstance "i2" Sample.flatcar) (issued (SelectGroup "stable") w) in
  RegisterEvent Sample.flatcar specUpdatesStats "i2" Sample.flatcar "stable"
    EventUpdateDownloadStarted ResultSuccess "1.0.0" "" w
  = (Some ErrNoUpdateInProgress, w2)
  /\ db w2 = Sample.store.
Proof.
  intros w w2.
  destruct (no_update_in_progress_drops_event Sample.flatcar specUpdatesStats
              w (issued (SelectGroup "stable") w) w2
              "i2" Sample.flatcar "stable" Sample.flatcar "stable"
              EventUpdateDownloadStarted ResultSuccess "1.0.0" ""
              (Instance.Build "i2"
                 (Sample.binding Sample.flatcar "stable" InstanceStatusInstalled false)))
    as (Hr & Hdb & _).
  - reflexivity.
  - reflexivity.
  - reflexivity.
  - reflexivity.
  - split; [exact Hr | exact Hdb].
Defined.

Lemma success_reboot_completes_flatcar_witness :
  let plain := triggerEventConsequences Sample.flatcar specUpdatesStats
                 "i1" Sample.flatcar "stable" "2.0.0"
                 EventUpdateComplete ResultSuccess (Sample.api false []) in
  let other := triggerEventConsequences Sample.flatcar specUpdatesStats
                 "i3" Sample.otherApp "prod" "2.0.0"
                 EventUpdateComplete ResultSuccess (Sample.api false []) in
  db (snd plain) = Sample.store
  /\ journal (snd plain) = [SelectGroup "stable"]
  /\ InstanceApplication.Status
       <$> instance_application (db (snd other)) !! ("i3", Sample.otherApp)
     = Some InstanceStatusComplete.
Proof.
  intros plain other.
  destruct (success_reboot_completes_flatcar Sample.flatcar specUpdatesStats)
    as (_ & _ & Hplain & Hother).
  destruct (Hplain (Sample.api false []) "i1" "stable" "2.0.0") as [Hdb Hj].
  destruct (Hother (Sample.api false []) "i3" Sample.otherApp "prod" "2.0.0"
              (Group.Build "prod" Sample.otherApp "2.0.0" true true)
              ltac:(discriminate) eq_refl eq_refl) as (Hst & _).
  split; [exact Hdb|]. split; [exact Hj|].
  unfold other. rewrite Hst. reflexivity.
Defined.

Lemma recorded_event_reports_success_witness :
  let run := RegisterEvent Sample.flatcar specUpdatesStats "i1" Sample.flatcar "stable"
               EventUpdateComplete ResultSuccessReboot "1.0.0" ""
               (Sample.api false [false; false; false; false; false; true; true]) in
  length (event (db (snd run))) = 1%nat
  /\ fst run = None
  /\ logged (snd run)
     = [(ErrorLevel, "triggerEventConsequences - could not update instance status");
        (ErrorLevel, "RegisterEvent - could not trigger event consequences")].
Proof.
  intros run.
  destruct (recorded_event_reports_success Sample.flatcar specUpdatesStats
              (Sample.api false [false; false; false; false; false; true; true])
              "i1" Sample.flatcar "stable" EventUpdateComplete ResultSuccessReboot
              "1.0.0" "" (fst run) (snd run)) as (Hr & _).
  - apply surjective_pairing.
  - vm_compute. discriminate.
  - split; [vm_compute; reflexivity|]. split; [exact Hr|]. vm_compute. reflexivity.
Defined.



Lemma registered_error_code_round_trip_witness :
  let first := RegisterEvent Sample.flatcar specUpdatesStats "i1" Sample.flatcar "stable"
                 EventUpdateDownloadStarted ResultSuccess "1.0.0" "E1"
                 (Sample.api false []) in
  let second := RegisterEvent Sample.flatcar specUpdatesStats "i1" Sample.flatcar "stable"
                  EventUpdateDownloadFinished ResultSuccess "1.0.0" "E2" (snd first) in
  Event.CreatedTs <$> event (db (snd second)) = [1000%Z; 1001%Z]
  /\ fst (GetEvent "i1" Sample.flatcar 1000 (snd second)) = (null.NewString "E1" true, None).
Proof.
  intros first second.
  split; [vm_compute; reflexivity|].
  assert (Hfirst : fst first = None) by (vm_compute; reflexivity).
  refine (proj2 (registered_error_code_round_trip Sample.flatcar specUpdatesStats
                   (Sample.api false []) "i1" Sample.flatcar "stable"
                   EventUpdateDownloadStarted ResultSuccess "1.0.0" "E1"
                   (snd first) (snd second)
                   [Event.Build 2 1001 (null.NewString "1.0.0" true)
                      (null.NewString "E2" true) "i1" Sample.flatcar 5]
                   1000 _ _ _ _ _ _)).
  - rewrite <- Hfirst. apply surjective_pairing.
  - intros e [].
  - vm_compute. reflexivity.
  - intros e [<-|[]] _ _. reflexivity.
  - vm_compute. discriminate.
  - vm_compute. reflexivity.
Defined.

(** * More of events.go

    What the three functions do on the paths not covered above:
    the other rejections of [RegisterEvent], the progress events, the events
    no branch matches, failures of single statements, and what a run never
    touches. *)

Section MoreEventsFacts.

Variable flatcarAppID : string.
Variable updatesStats : Store -> Group.t -> UpdatesStats.

Ltac by_guards appID etype result :=
  let H := fresh "Hg" in
  destruct (guards_cases flatcarAppID appID etype result)
    as [H|[H|[H|[H|[H|H]]]]];
  cbv zeta in H; injection H as -> -> -> -> ->.

(** ** Consequence evaluation *)

(** X1.  A progress event (download started, download finished, installed,
    each with [ResultSuccess]), once the group is found: one status update
    to the matching status is sent and nothing else, whatever the database
    does; when the update fails the tables are as before and one line is
    logged.  No stats query is sent and no group or activity row
    changes. *)
Theorem progress_event_sets_status
  (w : API) (instanceID appID groupID version : string) (etype : Z)
  (status : InstanceStatus) (group : Group.t) :
  hd false (faults w) = false ->
  groups (db w) !! groupID = Some group ->
  (etype = EventUpdateDownloadStarted /\ status = InstanceStatusDownloading)
  \/ (etype = EventUpdateDownloadFinished /\ status = InstanceStatusDownloaded)
  \/ (etype = EventUpdateInstalled /\ status = InstanceStatusInstalled) ->
  let run := triggerEventConsequences flatcarAppID updatesStats
               instanceID appID groupID version etype ResultSuccess w in
  let failed := hd false (tl (faults w)) in
  fst run = None
  /\ db (snd run)
     = (if failed then db w else writeInstanceStatus instanceID appID status (db w))
  /\ journal (snd run)
     = (journal w ++ [SelectGroup groupID;
                      UpdateInstanceStatus instanceID appID status])%list
  /\ logged (snd run)
     = (logged w ++
        (if failed
         then [(ErrorLevel, "triggerEventConsequences - could not update instance status")]
         else []))%list.
Proof.
  intros Hf Hgroup Hev run failed. subst run failed.
  apply wp_fst_snd. unfold triggerEventConsequences.
  destruct Hev as [[-> ->]|[[-> ->]|[-> ->]]];
    match goal with
    | |- context [guardComplete ?f ?a ?t ?r] =>
        change (guardComplete f a t r) with false
    end;
    match goal with
    | |- context [guardDownloadStarted ?t ?r] =>
        let b := eval vm_compute in (guardDownloadStarted t r) in
        change (guardDownloadStarted t r) with b
    end;
    match goal with
    | |- context [guardDownloadFinished ?t ?r] =>
        let b := eval vm_compute in (guardDownloadFinished t r) in
        change (guardDownloadFinished t r) with b
    end;
    match goal with
    | |- context [guardInstalled ?t ?r] =>
        let b := eval vm_compute in (guardInstalled t r) in
        change (guardInstalled t r) with b
    end;
    change (guardFailed ResultSuccess) with false;
    repeat wp_step;
    rewrite ?app_nil_r; repeat split; rewrite <- ?app_assoc; reflexivity.
Qed.

(** X2.  An event that none of the five branches matches (for instance
    [ResultSuccessReboot] with a type other than update-complete, or a
    plain success of an unknown type) has no consequence: the group is
    looked up and that is all.  The evaluation succeeds exactly when the
    lookup does. *)
Theorem unmatched_event_has_no_consequence
  (w : API) (instanceID appID groupID version : string) (etype result : Z) :
  guardComplete flatcarAppID appID etype result = false ->
  guardDownloadStarted etype result = false ->
  guardDownloadFinished etype result = false ->
  guardInstalled etype result = false ->
  guardFailed result = false ->
  let run := triggerEventConsequences flatcarAppID updatesStats
               instanceID appID groupID version etype result w in
  db (snd run) = db w
  /\ journal (snd run) = (journal w ++ [SelectGroup groupID])%list
  /\ logged (snd run) = logged w
  /\ (fst run = None
      <-> hd false (faults w) = false /\ is_Some (groups (db w) !! groupID)).
Proof.
  intros HC HS HD HI HF run. subst run.
  apply wp_fst_snd. unfold triggerEventConsequences.
  repeat wp_step; (repeat split; try reflexivity; try discriminate; eauto).
  - intros [H _]. discriminate.
  - intros [_ [x H]]. discriminate.
Qed.

(** X3.  The error of a consequence evaluation is the error of its last
    statement, and that statement is a read.  When an error is returned,
    the last statement sent is the group lookup or the stats query, and it
    is the one that failed: either the database failed it
    ([ErrDriver]) or it is the group lookup, served, with no such group
    ([sql.ErrNoRows]).  When [nil] is returned, every read that was sent
    was served and the group exists.  So the failure of a write is never
    returned, and the failure of a read always is. *)
Theorem consequences_fail_on_reads_only
  (w : API) (instanceID appID groupID version : string) (etype result : Z) :
  let run := triggerEventConsequences flatcarAppID updatesStats
               instanceID appID groupID version etype result w in
  exists js : list Stmt,
    journal (snd run) = (journal w ++ js)%list
    /\ (forall e : error,
          fst run = Some e ->
          (e = ErrDriver \/ e = ErrNoRows)
          /\ (exists s, last js = Some s /\ isSelect s = true)
          /\ (e = ErrNoRows -> groups (db w) !! groupID = None)
          /\ (e = ErrDriver <-> faultAt (length js - 1) (faults w) = true)
          /\ (e = ErrNoRows -> js = [SelectGroup groupID]))
    /\ (fst run = None ->
        is_Some (groups (db w) !! groupID)
        /\ forall (k : nat) (s : Stmt),
             nth_error js k = Some s -> isSelect s = true ->
             faultAt k (faults w) = false).
Proof.
  intros run. subst run.
  apply (wp_fst_snd
           (triggerEventConsequences flatcarAppID updatesStats
              instanceID appID groupID version etype result)
           (fun r w' =>
              exists js : list Stmt,
                journal w' = (journal w ++ js)%list
                /\ (forall e : error,
                      r = Some e ->
                      (e = ErrDriver \/ e = ErrNoRows)
                      /\ (exists s, last js = Some s /\ isSelect s = true)
                      /\ (e = ErrNoRows -> groups (db w) !! groupID = None)
                      /\ (e = ErrDriver <-> faultAt (length js - 1) (faults w) = true)
                      /\ (e = ErrNoRows -> js = [SelectGroup groupID]))
                /\ (r = None ->
                    is_Some (groups (db w) !! groupID)
                    /\ forall (k : nat) (s : Stmt),
                         nth_error js k = Some s -> isSelect s = true ->
                         faultAt k (faults w) = false))).
  unfold triggerEventConsequences.
  by_guards appID etype result; repeat wp_step;
    (eexists; split; [rewrite <- ?app_assoc; reflexivity|]);
    (split;
     [ intros e He; try discriminate He; injection He as <-;
       (split; [auto|]); (split; [eexists; split; reflexivity|]);
       (split; [intros; (discriminate || reflexivity)|]);
       (split;
        [ cbn [faultAt length Nat.sub app];
          split; intros; (assumption || congruence)
        | intros; (discriminate || reflexivity) ])
     | intros Hnil; try discriminate Hnil;
       (split; [eauto|]);
       intros k s Hk Hs;
       repeat (destruct k as [|k];
               [ cbn in Hk; injection Hk as <-;
                 first [ discriminate Hs | cbn [faultAt]; assumption ] |]);
       destruct k; discriminate Hk ]).
Qed.

(** X4.  An update-complete with an acceptable result whose stats query
    fails: the error is returned, the status update has been tried (the
    instance is [Complete] when it was served), and the rollout is left as
    it was: no group flag is written and no activity entry appended. *)
Theorem stats_failure_leaves_rollout_in_progress
  (w : API) (instanceID appID groupID version : string) (result : Z) (group : Group.t) :
  hd false (faults w) = false ->
  groups (db w) !! groupID = Some group ->
  result = ResultSuccessReboot \/ (appID <> flatcarAppID /\ result = ResultSuccess) ->
  hd false (tl (tl (faults w))) = true ->
  let run := triggerEventConsequences flatcarAppID updatesStats
               instanceID appID groupID version EventUpdateComplete result w in
  fst run = Some ErrDriver
  /\ db (snd run)
     = (if hd false (tl (faults w)) then db w
        else writeInstanceStatus instanceID appID InstanceStatusComplete (db w))
  /\ groups (db (snd run)) = groups (db w)
  /\ activity (db (snd run)) = activity (db w)
  /\ journal (snd run)
     = (journal w ++ [SelectGroup groupID;
                      UpdateInstanceStatus instanceID appID InstanceStatusComplete;
                      SelectUpdatesStats (Group.ID group)])%list.
Proof.
  intros Hf Hgroup Hres Hstats run. subst run.
  assert (HC : guardComplete flatcarAppID appID EventUpdateComplete result = true)
    by (apply guardComplete_spec; auto).
  apply wp_fst_snd. unfold triggerEventConsequences.
  repeat wp_step; repeat split; rewrite <- ?app_assoc; reflexivity.
Qed.

(** X5.  The writes of the failure branch are each tried on their own.
    For an event with [ResultFailed], once the group is found, the status
    update to [Error] and the instance-update-failed entry are both sent,
    in this order, whatever the database does and whatever comes after:
    each is logged when it fails, and when it is served the binding has
    status [Error], respectively the entry is in the activity table.
    What follows is then decided by [disableUpdatesOnFailedRollout]:
    unset, nothing more is sent and the result is [nil]; set, the stats
    query is sent on the tables as they then stand: failing, its error is
    returned and the group is not halted; served, the result is [nil], and
    when [UpdatesToCurrentVersionAttempted] is 1 the three halting writes
    (disable updates, clear the rollout flag, rollout-failed entry) are
    each sent, each taking effect when served and logged when not. *)
Theorem failed_event_writes_are_best_effort
  (w : API) (instanceID appID groupID version : string) (etype : Z) (group : Group.t) :
  hd false (faults w) = false ->
  groups (db w) !! groupID = Some group ->
  let run := triggerEventConsequences flatcarAppID updatesStats
               instanceID appID groupID version etype ResultFailed w in
  let instanceFailed :=
    Activity.Build activityInstanceUpdateFailed activityError version appID groupID
      (Some instanceID) in
  let rolloutFailed :=
    Activity.Build activityRolloutFailed activityError version appID groupID None in
  let statusFailed := hd false (tl (faults w)) in
  let entryFailed := hd false (tl (tl (faults w))) in
  let statsFailed := hd false (tl (tl (tl (faults w)))) in
  let disableFailed := hd false (tl (tl (tl (tl (faults w))))) in
  let clearFailed := hd false (tl (tl (tl (tl (tl (faults w)))))) in
  let groupEntryFailed := hd false (tl (tl (tl (tl (tl (tl (faults w))))))) in
  let marked :=
    if statusFailed then db w
    else writeInstanceStatus instanceID appID InstanceStatusError (db w) in
  let noted2 := if entryFailed then marked else appendActivity instanceFailed marked in
  let firstAttempt :=
    (UpdatesToCurrentVersionAttempted (updatesStats noted2 group) =? 1)%Z in
  let disabled :=
    if disableFailed then noted2
    else writeGroup (setUpdatesEnabled false) groupID noted2 in
  let cleared :=
    if clearFailed then disabled else writeGroup (setRollout false) groupID disabled in
  let halted := if groupEntryFailed then cleared else appendActivity rolloutFailed cleared in
  let lines :=
    ((if statusFailed
      then [(ErrorLevel, "triggerEventConsequences - could not update instance status")]
      else []) ++
     (if entryFailed
      then [(ErrorLevel, "triggerEventConsequences - could not add instance activity")]
      else []))%list in
  let haltLines :=
    ((if disableFailed
      then [(ErrorLevel, "triggerEventConsequences - could not disable updates")]
      else []) ++
     (if clearFailed
      then [(ErrorLevel, "triggerEventConsequences - could not set rollout progress")]
      else []) ++
     (if groupEntryFailed
      then [(ErrorLevel, "triggerEventConsequences - could not add group activity")]
      else []))%list in
  let sent :=
    [SelectGroup groupID;
     UpdateInstanceStatus instanceID appID InstanceStatusError;
     InsertActivity instanceFailed] in
  (disableUpdatesOnFailedRollout w = false ->
   fst run = None
   /\ db (snd run) = noted2
   /\ journal (snd run) = (journal w ++ sent)%list
   /\ logged (snd run) = (logged w ++ lines)%list)
  /\ (disableUpdatesOnFailedRollout w = true ->
      hd false (tl (tl (tl (faults w)))) = true ->
      fst run = Some ErrDriver
      /\ db (snd run) = noted2
      /\ journal (snd run)
         = (journal w ++ sent ++ [SelectUpdatesStats (Group.ID group)])%list
      /\ logged (snd run) = (logged w ++ lines)%list)
  /\ (disableUpdatesOnFailedRollout w = true ->
      statsFailed = false ->
      fst run = None
      /\ db (snd run) = (if firstAttempt then halted else noted2)
      /\ journal (snd run)
         = (journal w ++ sent ++ [SelectUpdatesStats (Group.ID group)] ++
            (if firstAttempt
             then [UpdatePolicyUpdatesEnabled groupID false;
                   UpdateRolloutInProgress groupID false;
                   InsertActivity rolloutFailed]
             else []))%list
      /\ logged (snd run)
         = (logged w ++ lines ++ (if firstAttempt then haltLines else []))%list
      /\ (firstAttempt = true ->
          groups (db (snd run)) !! groupID
          = Some (Group.Build (Group.ID group) (Group.ApplicationID group)
                    (Group.TargetVersion group)
                    (if clearFailed then Group.RolloutInProgress group else false)
                    (if disableFailed then Group.PolicyUpdatesEnabled group else false))))
  /\ (exists rest : list Stmt, journal (snd run) = (journal w ++ sent ++ rest)%list)
  /\ (exists more : list (Level * string),
        logged (snd run) = (logged w ++ lines ++ more)%list)
  /\ (exists later : list Activity.t,
        activity (db (snd run))
        = (activity (db w) ++ (if entryFailed then [] else [instanceFailed]) ++ later)%list)
  /\ (forall a : InstanceApplication.t,
        instance_application (db w) !! (instanceID, appID) = Some a ->
        instance_application (db (snd run)) !! (instanceID, appID)
        = Some (if statusFailed then a
                else InstanceApplication.Build
                       (InstanceApplication.ApplicationID a)
                       (InstanceApplication.GroupID a)
                       InstanceStatusError
                       (InstanceApplication.UpdateInProgress a)
                       (InstanceApplication.LastUpdateVersion a))).
Proof.
  intros Hf Hgroup run instanceFailed rolloutFailed statusFailed entryFailed statsFailed
    disableFailed clearFailed groupEntryFailed marked noted2 firstAttempt disabled cleared
    halted lines haltLines sent.
  subst run instanceFailed rolloutFailed statusFailed entryFailed statsFailed
    disableFailed clearFailed groupEntryFailed marked noted2 firstAttempt disabled cleared
    halted lines haltLines sent.
  assert (HC : guardComplete flatcarAppID appID etype ResultFailed = false)
    by (unfold guardComplete; cbn; now rewrite !andb_false_r).
  assert (HS : guardDownloadStarted etype ResultFailed = false) by apply andb_false_r.
  assert (HD : guardDownloadFinished etype ResultFailed = false) by apply andb_false_r.
  assert (HI : guardInstalled etype ResultFailed = false) by apply andb_false_r.
  assert (HF : guardFailed ResultFailed = true) by reflexivity.
  apply wp_fst_snd. unfold triggerEventConsequences.
  repeat wp_step;
    (split; [intros; try discriminate;
             repeat split; rewrite ?app_nil_r, <- ?app_assoc; reflexivity|]);
    (split; [intros; try discriminate;
             repeat split; rewrite ?app_nil_r, <- ?app_assoc; reflexivity|]);
    (split; [intros; try discriminate;
             (split; [reflexivity|]); (split; [reflexivity|]);
             (split; [rewrite ?app_nil_r, <- ?app_assoc; reflexivity|]);
             (split; [rewrite ?app_nil_r, <- ?app_assoc; reflexivity|]);
             intros; try discriminate;
             cbn; rewrite ?lookup_alter_eq, Hgroup; destruct group; reflexivity|]);
    (split; [eexists; rewrite <- ?app_assoc; reflexivity|]);
    (split; [eexists; rewrite <- ?app_assoc; cbn [app];
             first [reflexivity | symmetry; apply app_nil_r]|]);
    (split; [eexists; cbn; rewrite <- ?app_assoc; cbn [app];
             first [reflexivity | symmetry; apply app_nil_r]|]);
    intros a Ha; cbn; rewrite ?lookup_alter_eq, Ha; reflexivity.
Qed.

(** The rows a consequence evaluation leaves alone. *)
Lemma triggerEventConsequences_frame
  (w : API) (instanceID appID groupID version : string) (etype result : Z) :
  wp (triggerEventConsequences flatcarAppID updatesStats
        instanceID appID groupID version etype result)
     (fun _ w' =>
        event (db w') = event (db w)
        /\ event_type (db w') = event_type (db w)
        /\ now (db w') = now (db w)
        /\ (forall k, k <> (instanceID, appID) ->
              instance_application (db w') !! k = instance_application (db w) !! k)
        /\ (forall g, g <> groupID -> groups (db w') !! g = groups (db w) !! g)
        /\ exists entries, activity (db w') = (activity (db w) ++ entries)%list
                           /\ (length entries <= 2)%nat) w.
Proof.
  unfold triggerEventConsequences.
  by_guards appID etype result; repeat wp_step;
    (split; [reflexivity|]); (split; [reflexivity|]); (split; [reflexivity|]);
    (split; [intros k Hk; cbn; rewrite ?lookup_alter_ne by congruence; reflexivity|]);
    (split; [intros g Hg; cbn; rewrite ?lookup_alter_ne by congruence; reflexivity|]);
    first [ exists []; split; [symmetry; apply app_nil_r | cbn; lia]
          | eexists; split; [cbn; rewrite <- ?app_assoc; reflexivity | cbn; lia] ].
Qed.

(** X6.  What consequence evaluation never touches, whatever the event and
    whatever the database does: the event table, the event types and the
    clock; the bindings of other instances and applications; the rows of
    other groups.  Activity entries are only appended, at most two. *)
Theorem consequences_frame
  (w : API) (instanceID appID groupID version : string) (etype result : Z) :
  let w' := snd (triggerEventConsequences flatcarAppID updatesStats
                   instanceID appID groupID version etype result w) in
  event (db w') = event (db w)
  /\ event_type (db w') = event_type (db w)
  /\ now (db w') = now (db w)
  /\ (forall k, k <> (instanceID, appID) ->
        instance_application (db w') !! k = instance_application (db w) !! k)
  /\ (forall g, g <> groupID -> groups (db w') !! g = groups (db w) !! g)
  /\ exists entries, activity (db w') = (activity (db w) ++ entries)%list
                     /\ (length entries <= 2)%nat.
Proof. exact (triggerEventConsequences_frame w instanceID appID groupID version etype result). Qed.

(** X7.  The only statements on groups that consequence evaluation sends
    clear a flag of the group it was given: it never sets
    [RolloutInProgress], never re-enables updates and never writes another
    group.  Accordingly the flags of the group are as before or cleared,
    and the row is neither created nor removed. *)
Theorem consequences_only_clear_group_flags
  (w : API) (instanceID appID groupID version : string) (etype result : Z) :
  let w' := snd (triggerEventConsequences flatcarAppID updatesStats
                   instanceID appID groupID version etype result w) in
  (exists js : list Stmt,
      journal w' = (journal w ++ js)%list
      /\ forall g b,
           In (UpdateRolloutInProgress g b) js \/ In (UpdatePolicyUpdatesEnabled g b) js ->
           g = groupID /\ b = false)
  /\ match groups (db w) !! groupID with
     | Some g => exists g', groups (db w') !! groupID = Some g' /\ flagsOnlyCleared g g'
     | None => groups (db w') !! groupID = None
     end.
Proof.
  intros w'. subst w'. split.
  - apply (wp_fst_snd
             (triggerEventConsequences flatcarAppID updatesStats
                instanceID appID groupID version etype result)
             (fun _ w' =>
                exists js : list Stmt,
                  journal w' = (journal w ++ js)%list
                  /\ forall g b,
                       In (UpdateRolloutInProgress g b) js
                       \/ In (UpdatePolicyUpdatesEnabled g b) js ->
                       g = groupID /\ b = false)).
    unfold triggerEventConsequences.
    by_guards appID etype result; repeat wp_step;
      (eexists; split; [rewrite <- ?app_assoc; reflexivity|]);
      intros g b [H|H]; cbn in H;
      repeat (destruct H as [H|H]; [try discriminate H; injection H as <- <-; auto|]);
      destruct H.
  - apply (wp_fst_snd
             (triggerEventConsequences flatcarAppID updatesStats
                instanceID appID groupID version etype result)
             (fun _ w' =>
                match groups (db w) !! groupID with
                | Some g => exists g', groups (db w') !! groupID = Some g'
                                       /\ flagsOnlyCleared g g'
                | None => groups (db w') !! groupID = None
                end)).
    unfold triggerEventConsequences.
    by_guards appID etype result; repeat wp_step;
      cbn; rewrite ?lookup_alter_eq;
      try match goal with H : groups _ !! _ = _ |- _ => rewrite ?H end;
      try (destruct (groups (db w) !! groupID) as [g|]);
      cbn; try reflexivity;
      (eexists; split; [reflexivity|]);
      unfold flagsOnlyCleared; cbn; split; auto; discriminate.
Qed.

(** ** Registration *)

Lemma GetInstance_state instanceID appID w r w' :
  GetInstance instanceID appID w = (r, w') ->
  w' = issued (SelectInstance instanceID appID) w.
Proof. intros H. wp_of H. repeat wp_step; reflexivity. Qed.

Lemma flatcarIgnored_spec appID etype eresult previousVersion :
  flatcarIgnored flatcarAppID appID etype eresult previousVersion = true <->
  appID = flatcarAppID /\ etype = EventUpdateComplete /\ eresult = ResultSuccessReboot
  /\ (previousVersion = "" \/ previousVersion = "0.0.0.0").
Proof.
  unfold flatcarIgnored.
  rewrite !andb_true_iff, orb_true_iff, !Z.eqb_eq, !String.eqb_eq. tauto.
Qed.

(** X8.  When the instance cannot be fetched, for whatever reason (it is
    not known, or the database failed), a call that has passed the
    application/group check is answered [ErrInvalidInstance]: the error of
    the lookup is not returned but logged at info level, and nothing is
    written. *)
Theorem instance_lookup_failure_is_invalid_instance
  (w w1 w2 : API) (instanceID appID groupID appID' groupID' : string)
  (etype eresult : Z) (previousVersion errorCode : string) (e : error) :
  validateApplicationAndGroup appID groupID w = (Ok (appID', groupID'), w1) ->
  GetInstance instanceID appID' w1 = (Err e, w2) ->
  let run := RegisterEvent flatcarAppID updatesStats instanceID appID groupID
               etype eresult previousVersion errorCode w in
  fst run = Some ErrInvalidInstance
  /\ db (snd run) = db w
  /\ journal (snd run)
     = (journal w ++ [SelectGroup groupID; SelectInstance instanceID appID'])%list
  /\ logged (snd run)
     = (logged w ++
        [(InfoLevel, "RegisterEvent - could not get instance, maybe it is a first contact (propagates as ErrInvalidInstance)")])%list.
Proof.
  intros Hv Hi run. subst run.
  pose proof (validateApplicationAndGroup_inv _ _ _ _ _ _ Hv) as (-> & -> & -> & _).
  pose proof (GetInstance_state _ _ _ _ _ Hi) as ->.
  apply wp_fst_snd. unfold RegisterEvent.
  repeat wp_step. repeat split; rewrite <- ?app_assoc; reflexivity.
Qed.

(** X9.  An instance whose binding names another application than the one
    resolved is answered [ErrInvalidApplicationOrGroup], before the
    update-in-progress flag is looked at; nothing is written or logged. *)
Theorem foreign_binding_is_rejected
  (w w1 w2 : API) (instanceID appID groupID appID' groupID' : string)
  (etype eresult : Z) (previousVersion errorCode : string) (instance : Instance.t) :
  validateApplicationAndGroup appID groupID w = (Ok (appID', groupID'), w1) ->
  GetInstance instanceID appID' w1 = (Ok instance, w2) ->
  InstanceApplication.ApplicationID (Instance.Application instance) <> appID' ->
  RegisterEvent flatcarAppID updatesStats instanceID appID groupID etype eresult
      previousVersion errorCode w
    = (Some ErrInvalidApplicationOrGroup, w2)
  /\ db w2 = db w
  /\ logged w2 = logged w.
Proof.
  intros Hv Hi Happ. split.
  - unfold RegisterEvent, bind. rewrite Hv, Hi.
    apply String.eqb_neq in Happ. now rewrite Happ.
  - apply validateApplicationAndGroup_inv in Hv as (-> & -> & -> & _).
    apply GetInstance_inv in Hi as (-> & _). auto.
Qed.

(** X10.  A database failure of the event-type lookup is reported as
    [ErrInvalidEventTypeOrResult], whether or not the (type, result) pair
    is supported; the event is not recorded. *)
Theorem event_type_lookup_failure_is_invalid_type
  (w w1 w2 : API) (instanceID appID groupID appID' groupID' : string)
  (etype eresult : Z) (previousVersion errorCode : string) (instance : Instance.t) :
  validateApplicationAndGroup appID groupID w = (Ok (appID', groupID'), w1) ->
  GetInstance instanceID appID' w1 = (Ok instance, w2) ->
  InstanceApplication.ApplicationID (Instance.Application instance) = appID' ->
  InstanceApplication.UpdateInProgress (Instance.Application instance) = true ->
  flatcarIgnored flatcarAppID appID' etype eresult previousVersion = false ->
  hd false (faults w2) = true ->
  let run := RegisterEvent flatcarAppID updatesStats instanceID appID groupID
               etype eresult previousVersion errorCode w in
  fst run = Some ErrInvalidEventTypeOrResult
  /\ db (snd run) = db w
  /\ logged (snd run) = logged w
  /\ journal (snd run)
     = (journal w ++ [SelectGroup groupID; SelectInstance instanceID appID';
                      SelectEventType etype eresult])%list.
Proof.
  intros Hv Hi Happ Hup Hign Hfault run. subst run.
  pose proof (validateApplicationAndGroup_inv _ _ _ _ _ _ Hv) as (-> & -> & -> & _).
  pose proof (GetInstance_inv _ _ _ _ _ Hi) as (-> & _ & a & -> & Ha).
  simpl_state.
  assert (Hb : negb (String.eqb (InstanceApplication.ApplicationID a) appID) = false)
    by (rewrite Happ, String.eqb_refl; reflexivity).
  assert (Hu : negb (InstanceApplication.UpdateInProgress a) = false)
    by (rewrite Hup; reflexivity).
  apply wp_fst_snd. unfold RegisterEvent.
  repeat wp_step. repeat split; rewrite <- ?app_assoc; reflexivity.
Qed.

(** X11.  When the insert of the event fails, the call is answered
    [ErrEventRegistrationFailed]: no row is recorded, no consequence is
    evaluated (the insert is the last statement sent) and nothing is
    logged. *)
Theorem insert_failure_is_registration_failed
  (w w1 w2 : API) (instanceID appID groupID appID' groupID' : string)
  (etype eresult eventTypeID : Z) (previousVersion errorCode : string)
  (instance : Instance.t) :
  validateApplicationAndGroup appID groupID w = (Ok (appID', groupID'), w1) ->
  GetInstance instanceID appID' w1 = (Ok instance, w2) ->
  InstanceApplication.ApplicationID (Instance.Application instance) = appID' ->
  InstanceApplication.UpdateInProgress (Instance.Application instance) = true ->
  flatcarIgnored flatcarAppID appID' etype eresult previousVersion = false ->
  hd false (faults w2) = false ->
  findEventType etype eresult (event_type (db w)) = Some eventTypeID ->
  hd false (tl (faults w2)) = true ->
  let run := RegisterEvent flatcarAppID updatesStats instanceID appID groupID
               etype eresult previousVersion errorCode w in
  fst run = Some ErrEventRegistrationFailed
  /\ db (snd run) = db w
  /\ logged (snd run) = logged w
  /\ journal (snd run)
     = (journal w ++ [SelectGroup groupID; SelectInstance instanceID appID';
                      SelectEventType etype eresult;
                      InsertEvent eventTypeID instanceID appID'
                        previousVersion errorCode])%list.
Proof.
  intros Hv Hi Happ Hup Hign Hf1 Hid Hf2 run. subst run.
  pose proof (validateApplicationAndGroup_inv _ _ _ _ _ _ Hv) as (-> & -> & -> & _).
  pose proof (GetInstance_inv _ _ _ _ _ Hi) as (-> & _ & a & -> & Ha).
  simpl_state.
  assert (Hb : negb (String.eqb (InstanceApplication.ApplicationID a) appID) = false)
    by (rewrite Happ, String.eqb_refl; reflexivity).
  assert (Hu : negb (InstanceApplication.UpdateInProgress a) = false)
    by (rewrite Hup; reflexivity).
  apply wp_fst_snd. unfold RegisterEvent.
  repeat wp_step. repeat split; rewrite <- ?app_assoc; reflexivity.
Qed.

(** What an accepted registration has checked and appended. *)
Lemma RegisterEvent_accepted
  (w : API) (instanceID appID groupID : string) (etype eresult : Z)
  (previousVersion errorCode : string) :
  wp (RegisterEvent flatcarAppID updatesStats instanceID appID groupID etype eresult
        previousVersion errorCode)
     (fun r w' =>
        r = None ->
        exists (eventTypeID : Z) (a : InstanceApplication.t),
          findEventType etype eresult (event_type (db w)) = Some eventTypeID
          /\ instance_application (db w) !! (instanceID, appID) = Some a
          /\ InstanceApplication.ApplicationID a = appID
          /\ InstanceApplication.UpdateInProgress a = true
          /\ event (db w')
             = (event (db w) ++ [newEventRow (db w) eventTypeID instanceID appID
                                   previousVersion errorCode])%list) w.
Proof.
  unfold RegisterEvent.
  repeat wp_step; try discriminate.
  all: apply wp_any; intros c w2 Htrig;
    pose proof (wp_run _ _ _ _ _ Htrig
                  (triggerEventConsequences_keeps_events flatcarAppID updatesStats
                     _ _ _ _ _ _ _)) as (He & _);
    cbn in He;
    repeat wp_step; intros _;
    repeat match goal with
           | H : negb _ = false |- _ => apply negb_false_iff in H
           end;
    eexists _, _; (split; [reflexivity|]); (split; [reflexivity|]);
    (split; [now apply String.eqb_eq|]); (split; [assumption|]); exact He.
Qed.

(** The event table after a registration: as before, or one row more. *)
Lemma RegisterEvent_events
  (w : API) (instanceID appID groupID : string) (etype eresult : Z)
  (previousVersion errorCode : string) (r : option error) (w' : API) :
  RegisterEvent flatcarAppID updatesStats instanceID appID groupID etype eresult
      previousVersion errorCode w = (r, w') ->
  match r with
  | None =>
      exists eventTypeID,
        event (db w')
        = (event (db w) ++ [newEventRow (db w) eventTypeID instanceID appID
                              previousVersion errorCode])%list
  | Some _ => event (db w') = event (db w)
  end.
Proof.
  intros Hrun. destruct r as [e|].
  - destruct (RegisterEvent_cases _ _ _ _ _ _ _ _ _ _ _ _ Hrun)
      as [(_ & _ & Hdb) | [(_ & He) | (H & _)]];
      [now rewrite Hdb | assumption | discriminate].
  - pose proof (wp_run _ _ _ _ _ Hrun (RegisterEvent_accepted _ _ _ _ _ _ _ _)) as H.
    cbn beta in H. destruct (H eq_refl) as (z & a & _ & _ & _ & _ & He).
    eauto.
Qed.

(** X12.  A registration answers [nil] exactly when it has recorded the
    event, and it never alters or removes a row: on [nil] one row has been
    appended, carrying the instance, the resolved application, the previous
    version and the error code as given and the id of the (type, result)
    pair in [event_type], for an instance whose binding has an update in
    progress; on an error the event table is as before. *)
Theorem nil_exactly_when_recorded
  (w : API) (instanceID appID groupID : string) (etype eresult : Z)
  (previousVersion errorCode : string) (r : option error) (w' : API) :
  RegisterEvent flatcarAppID updatesStats instanceID appID groupID etype eresult
      previousVersion errorCode w = (r, w') ->
  match r with
  | None =>
      exists (eventTypeID : Z) (a : InstanceApplication.t),
        findEventType etype eresult (event_type (db w)) = Some eventTypeID
        /\ instance_application (db w) !! (instanceID, appID) = Some a
        /\ InstanceApplication.UpdateInProgress a = true
        /\ event (db w')
           = (event (db w) ++
              [Event.Build (Z.of_nat (length (event (db w))) + 1) (now (db w))
                 (null.NewString previousVersion true) (null.NewString errorCode true)
                 instanceID appID eventTypeID])%list
  | Some _ => event (db w') = event (db w)
  end.
Proof.
  intros Hrun. destruct r as [e|].
  - exact (RegisterEvent_events _ _ _ _ _ _ _ _ _ _ Hrun).
  - pose proof (wp_run _ _ _ _ _ Hrun (RegisterEvent_accepted _ _ _ _ _ _ _ _)) as H.
    cbn beta in H. destruct (H eq_refl) as (z & a & Hz & Ha & _ & Hup & He).
    exists z, a. auto.
Qed.

(** Consequence evaluation never resets a status to [Undefined]. *)
Lemma triggerEventConsequences_never_resets
  (w : API) (instanceID appID groupID version : string) (etype result : Z) :
  wp (triggerEventConsequences flatcarAppID updatesStats
        instanceID appID groupID version etype result)
     (fun _ w' =>
        exists js : list Stmt,
          journal w' = (journal w ++ js)%list
          /\ forall i a, ~ In (UpdateInstanceStatus i a InstanceStatusUndefined) js) w.
Proof.
  unfold triggerEventConsequences.
  by_guards appID etype result; repeat wp_step;
    (eexists; split; [rewrite <- ?app_assoc; reflexivity|]);
    intros i a H; cbn in H;
    repeat (destruct H as [H|H]; [discriminate H|]); destruct H.
Qed.

Lemma RegisterEvent_flatcar_ignored
  (w : API) (instanceID appID groupID : string) (etype eresult : Z)
  (previousVersion errorCode : string) :
  wp (RegisterEvent flatcarAppID updatesStats instanceID appID groupID etype eresult
        previousVersion errorCode)
     (fun r w' =>
        (r = Some ErrFlatcarEventIgnored ->
         flatcarIgnored flatcarAppID appID etype eresult previousVersion = true)
        /\ exists js : list Stmt,
            journal w' = (journal w ++ js)%list
            /\ (r <> Some ErrFlatcarEventIgnored ->
                forall i a, ~ In (UpdateInstanceStatus i a InstanceStatusUndefined) js)) w.
Proof.
  unfold RegisterEvent.
  repeat wp_step;
    try (split; [intros; (discriminate || reflexivity)|];
         eexists; split; [rewrite <- ?app_assoc; reflexivity|];
         intros Hne i a H;
         first [ now contradiction Hne
               | cbn in H; repeat (destruct H as [H|H]; [discriminate H|]); destruct H ]).
  all: apply wp_any; intros c w2 Htrig;
    pose proof (wp_run _ _ _ _ _ Htrig
                  (triggerEventConsequences_never_resets _ _ _ _ _ _ _))
      as (js0 & Hj & Hnever);
    simpl_state;
    repeat wp_step;
    (split; [discriminate|]);
    rewrite Hj;
    (eexists; split; [rewrite <- ?app_assoc; reflexivity|]);
    intros _ i a H; cbn in H;
    repeat (destruct H as [H|H]; [discriminate H|]);
    exact (Hnever i a H).
Qed.

(** X13.  [ErrFlatcarEventIgnored] is returned only for an update-complete
    with [ResultSuccessReboot] of the Flatcar application whose previous
    version is empty or 0.0.0.0; and a call that ends otherwise has sent no
    statement that resets a status to [Undefined]. *)
Theorem flatcar_ignored_only_for_stale_completion
  (w : API) (instanceID appID groupID : string) (etype eresult : Z)
  (previousVersion errorCode : string) (r : option error) (w' : API) :
  RegisterEvent flatcarAppID updatesStats instanceID appID groupID etype eresult
      previousVersion errorCode w = (r, w') ->
  (r = Some ErrFlatcarEventIgnored ->
   appID = flatcarAppID /\ etype = EventUpdateComplete /\ eresult = ResultSuccessReboot
   /\ (previousVersion = "" \/ previousVersion = "0.0.0.0"))
  /\ exists js : list Stmt,
      journal w' = (journal w ++ js)%list
      /\ (r <> Some ErrFlatcarEventIgnored ->
          forall i a, ~ In (UpdateInstanceStatus i a InstanceStatusUndefined) js).
Proof.
  intros Hrun.
  destruct (wp_run _ _ _ _ _ Hrun (RegisterEvent_flatcar_ignored _ _ _ _ _ _ _ _))
    as [Hign Hjs].
  split; [|exact Hjs].
  intros Hr. apply flatcarIgnored_spec. auto.
Qed.

(** The answer of [GetEvent], read off the event table. *)
Lemma GetEvent_fst (w : API) (instanceID appID : string) (timestamp : Z) :
  fst (GetEvent instanceID appID timestamp w)
  = if hd false (faults w) then (null.NewString "" true, Some ErrDriver)
    else match newest (List.filter (eventMatches instanceID appID timestamp)
                         (event (db w))) with
         | Some e => (Event.ErrorCode e, None)
         | None => (null.NewString "" true, Some ErrNoRows)
         end.
Proof.
  apply (wp_fst_snd (GetEvent instanceID appID timestamp)
           (fun r _ =>
              r = if hd false (faults w) then (null.NewString "" true, Some ErrDriver)
                  else match newest (List.filter
                                       (eventMatches instanceID appID timestamp)
                                       (event (db w))) with
                       | Some e => (Event.ErrorCode e, None)
                       | None => (null.NewString "" true, Some ErrNoRows)
                       end)).
  unfold GetEvent. wp_step. wp_step. wp_step.
  - wp_step. reflexivity.
  - wp_step. wp_step.
    destruct (newest (List.filter (eventMatches instanceID appID timestamp)
                        (event (db w)))); wp_step; reflexivity.
Qed.

(** X14.  A registration is invisible to the queries it does not concern:
    [GetEvent] for another instance, for another application or for a
    timestamp before the registration answers after the call what it
    answered before it; and so does every query after a registration that
    was refused.  (The two queries are compared under the same behaviour of
    the database.) *)
Theorem registration_invisible_to_other_queries
  (w : API) (instanceID appID groupID : string) (etype eresult : Z)
  (previousVersion errorCode : string) (r : option error) (w' : API)
  (i a : string) (timestamp : Z) :
  RegisterEvent flatcarAppID updatesStats instanceID appID groupID etype eresult
      previousVersion errorCode w = (r, w') ->
  r <> None \/ i <> instanceID \/ a <> appID \/ (timestamp < now (db w))%Z ->
  hd false (faults w') = hd false (faults w) ->
  fst (GetEvent i a timestamp w') = fst (GetEvent i a timestamp w).
Proof.
  intros Hrun Hother Hflag.
  rewrite !GetEvent_fst, Hflag.
  destruct (hd false (faults w)); [reflexivity|].
  pose proof (RegisterEvent_events _ _ _ _ _ _ _ _ _ _ Hrun) as He.
  destruct r as [e|]; [now rewrite He|].
  destruct He as (z & He). rewrite He, List.filter_app.
  assert (eventMatches i a timestamp
            (newEventRow (db w) z instanceID appID previousVersion errorCode)
          = false) as Hm.
  { apply not_true_is_false. rewrite eventMatches_spec. cbn.
    intros (Hi & Ha & Hts).
    destruct Hother as [H|[H|[H|H]]]; [now apply H | congruence | congruence | lia]. }
  cbn [List.filter]. rewrite Hm, app_nil_r. reflexivity.
Qed.

Lemma RegisterEvent_frame
  (w : API) (instanceID appID groupID : string) (etype eresult : Z)
  (previousVersion errorCode : string) :
  wp (RegisterEvent flatcarAppID updatesStats instanceID appID groupID etype eresult
        previousVersion errorCode)
     (fun _ w' =>
        event_type (db w') = event_type (db w)
        /\ (forall k, k <> (instanceID, appID) ->
              instance_application (db w') !! k = instance_application (db w) !! k)
        /\ (forall g, g <> groupID -> groups (db w') !! g = groups (db w) !! g)
        /\ exists entries, activity (db w') = (activity (db w) ++ entries)%list
                           /\ (length entries <= 2)%nat) w.
Proof.
  unfold RegisterEvent.
  repeat wp_step;
    repeat match goal with
           | H : negb (String.eqb _ _) = false |- _ =>
               apply negb_false_iff, String.eqb_eq in H
           end;
    try (split; [reflexivity|];
         (split; [intros k Hk; cbn; rewrite ?lookup_alter_ne by congruence;
                  reflexivity|]);
         (split; [intros g Hg; reflexivity|]);
         exists []; split; [symmetry; apply app_nil_r | cbn; lia]).
  all: apply wp_any; intros c w2 Htrig;
    pose proof (wp_run _ _ _ _ _ Htrig
                  (triggerEventConsequences_frame _ _ _ _ _ _ _))
      as (_ & Hty & _ & Hb & Hg & Hact);
    cbn in Hty, Hb, Hg, Hact;
    repeat wp_step; auto.
Qed.

(** X15.  What a registration never touches, whatever it answers and
    whatever the database does: the event types; the bindings of other
    instances and applications; the rows of other groups.  Activity
    entries are only appended, at most two. *)
Theorem registration_frame
  (w : API) (instanceID appID groupID : string) (etype eresult : Z)
  (previousVersion errorCode : string) :
  let w' := snd (RegisterEvent flatcarAppID updatesStats instanceID appID groupID
                   etype eresult previousVersion errorCode w) in
  event_type (db w') = event_type (db w)
  /\ (forall k, k <> (instanceID, appID) ->
        instance_application (db w') !! k = instance_application (db w) !! k)
  /\ (forall g, g <> groupID -> groups (db w') !! g = groups (db w) !! g)
  /\ exists entries, activity (db w') = (activity (db w) ++ entries)%list
                     /\ (length entries <= 2)%nat.
Proof.
  exact (RegisterEvent_frame w instanceID appID groupID etype eresult
           previousVersion errorCode).
Qed.

End MoreEventsFacts.

(** ** The further properties on the sample database *)

Lemma progress_event_sets_status_witness :
  let run := triggerEventConsequences Sample.flatcar specUpdatesStats
               "i1" Sample.flatcar "stable" "2.0.0"
               EventUpdateDownloadFinished ResultSuccess (Sample.api false []) in
  fst run = None
  /\ InstanceApplication.Status
       <$> instance_application (db (snd run)) !! ("i1", Sample.flatcar)
     = Some InstanceStatusDownloaded.
Proof.
  intros run.
  destruct (progress_event_sets_status Sample.flatcar specUpdatesStats
              (Sample.api false []) "i1" Sample.flatcar "stable" "2.0.0"
              EventUpdateDownloadFinished InstanceStatusDownloaded
              (Group.Build "stable" Sample.flatcar "2.0.0" true true)
              eq_refl eq_refl (or_intror (or_introl (conj eq_refl eq_refl))))
    as (Hr & Hdb & _).
  split; [exact Hr|].
  unfold run. rewrite Hdb. reflexivity.
Defined.

Lemma unmatched_event_has_no_consequence_witness :
  let run := triggerEventConsequences Sample.flatcar specUpdatesStats
               "i1" Sample.flatcar "stable" "2.0.0" 99 ResultSuccess
               (Sample.api false []) in
  fst run = None /\ db (snd run) = Sample.store.
Proof.
  intros run.
  destruct (unmatched_event_has_no_consequence Sample.flatcar specUpdatesStats
              (Sample.api false []) "i1" Sample.flatcar "stable" "2.0.0" 99 ResultSuccess
              eq_refl eq_refl eq_refl eq_refl eq_refl)
    as (Hdb & _ & _ & Hr).
  split; [|exact Hdb].
  apply Hr. split; [reflexivity|]. eexists. reflexivity.
Defined.

Lemma stats_failure_leaves_rollout_in_progress_witness :
  let run := triggerEventConsequences Sample.flatcar specUpdatesStats
               "i1" Sample.flatcar "stable" "2.0.0"
               EventUpdateComplete ResultSuccessReboot
               (Sample.api false [false; false; true]) in
  fst run = Some ErrDriver
  /\ Group.RolloutInProgress <$> groups (db (snd run)) !! "stable" = Some true.
Proof.
  intros run.
  destruct (stats_failure_leaves_rollout_in_progress Sample.flatcar specUpdatesStats
              (Sample.api false [false; false; true])
              "i1" Sample.flatcar "stable" "2.0.0" ResultSuccessReboot
              (Group.Build "stable" Sample.flatcar "2.0.0" true true)
              eq_refl eq_refl (or_introl eq_refl) eq_refl)
    as (Hr & _ & Hg & _).
  split; [exact Hr|].
  unfold run. rewrite Hg. reflexivity.
Defined.

Lemma failed_event_writes_are_best_effort_witness :
  let run := triggerEventConsequences Sample.flatcar specUpdatesStats
               "i3" Sample.otherApp "prod" "2.0.0"
               EventUpdateComplete ResultFailed
               (Sample.api true [false; false; true; false; false; true; false]) in
  InstanceApplication.Status
    <$> instance_application Sample.store !! ("i3", Sample.otherApp)
  = Some InstanceStatusInstalled
  /\ fst run = None
  /\ InstanceApplication.Status
       <$> instance_application (db (snd run)) !! ("i3", Sample.otherApp)
     = Some InstanceStatusError
  /\ groups (db (snd run)) !! "prod"
     = Some (Group.Build "prod" Sample.otherApp "2.0.0" true false)
  /\ Activity.Class <$> activity (db (snd run)) = [activityRolloutFailed]
  /\ logged (snd run)
     = [(ErrorLevel, "triggerEventConsequences - could not add instance activity");
        (ErrorLevel, "triggerEventConsequences - could not set rollout progress")].
Proof.
  intros run. split; [reflexivity|].
  destruct (failed_event_writes_are_best_effort Sample.flatcar specUpdatesStats
              (Sample.api true [false; false; true; false; false; true; false])
              "i3" Sample.otherApp "prod" "2.0.0" EventUpdateComplete
              (Group.Build "prod" Sample.otherApp "2.0.0" true true)
              eq_refl eq_refl)
    as (_ & _ & Hserved & _ & _ & _ & Hrow).
  destruct (Hserved eq_refl eq_refl) as (Hr & Hdb & _ & Hl & Hg).
  split; [exact Hr|].
  split.
  { unfold run.
    rewrite (Hrow (Sample.binding Sample.otherApp "prod" InstanceStatusInstalled true)
               eq_refl).
    reflexivity. }
  split; [apply Hg; vm_compute; reflexivity|].
  split.
  - unfold run. rewrite Hdb. vm_compute. reflexivity.
  - unfold run. rewrite Hl. vm_compute. reflexivity.
Defined.

Lemma instance_lookup_failure_is_invalid_instance_witness :
  let run := RegisterEvent Sample.flatcar specUpdatesStats "i9" Sample.flatcar "stable"
               EventUpdateDownloadStarted ResultSuccess "1.0.0" ""
               (Sample.api false []) in
  fst run = Some ErrInvalidInstance
  /\ db (snd run) = Sample.store
  /\ journal (snd run) = [SelectGroup "stable"; SelectInstance "i9" Sample.flatcar].
Proof.
  intros run.
  destruct (instance_lookup_failure_is_invalid_instance Sample.flatcar specUpdatesStats
              (Sample.api false [])
              (issued (SelectGroup "stable") (Sample.api false []))
              (issued (SelectInstance "i9" Sample.flatcar)
                 (issued (SelectGroup "stable") (Sample.api false [])))
              "i9" Sample.flatcar "stable" Sample.flatcar "stable"
              EventUpdateDownloadStarted ResultSuccess "1.0.0" "" ErrNoRows
              eq_refl eq_refl)
    as (Hr & Hdb & Hj & _).
  split; [exact Hr|]. split; [exact Hdb | exact Hj].
Defined.

Lemma foreign_binding_is_rejected_witness :
  let w2 := issued (SelectInstance "i1" Sample.flatcar)
              (issued (SelectGroup "stable") Skewed.api) in
  RegisterEvent Sample.flatcar specUpdatesStats "i1" Sample.flatcar "stable"
    EventUpdateDownloadStarted ResultSuccess "1.0.0" "" Skewed.api
  = (Some ErrInvalidApplicationOrGroup, w2)
  /\ db w2 = Skewed.store.
Proof.
  intros w2.
  destruct (foreign_binding_is_rejected Sample.flatcar specUpdatesStats
              Skewed.api (issued (SelectGroup "stable") Skewed.api) w2
              "i1" Sample.flatcar "stable" Sample.flatcar "stable"
              EventUpdateDownloadStarted ResultSuccess "1.0.0" ""
              (Instance.Build "i1"
                 (Sample.binding Sample.otherApp "prod" InstanceStatusDownloading true)))
    as (Hr & Hdb & _).
  - reflexivity.
  - reflexivity.
  - discriminate.
  - split; [exact Hr | exact Hdb].
Defined.

Lemma event_type_lookup_failure_is_invalid_type_witness :
  let run := RegisterEvent Sample.flatcar specUpdatesStats "i1" Sample.flatcar "stable"
               EventUpdateDownloadStarted ResultSuccess "1.0.0" ""
               (Sample.api false [false; false; true]) in
  findEventType EventUpdateDownloadStarted ResultSuccess Sample.eventTypes = Some 4%Z
  /\ fst run = Some ErrInvalidEventTypeOrResult
  /\ db (snd run) = Sample.store.
Proof.
  intros run. split; [reflexivity|].
  destruct (event_type_lookup_failure_is_invalid_type Sample.flatcar specUpdatesStats
              (Sample.api false [false; false; true])
              (issued (SelectGroup "stable") (Sample.api false [false; false; true]))
              (issued (SelectInstance "i1" Sample.flatcar)
                 (issued (SelectGroup "stable") (Sample.api false [false; false; true])))
              "i1" Sample.flatcar "stable" Sample.flatcar "stable"
              EventUpdateDownloadStarted ResultSuccess "1.0.0" ""
              (Instance.Build "i1"
                 (Sample.binding Sample.flatcar "stable" InstanceStatusDownloading true))
              eq_refl eq_refl eq_refl eq_refl eq_refl eq_refl)
    as (Hr & Hdb & _).
  split; [exact Hr | exact Hdb].
Defined.

Lemma insert_failure_is_registration_failed_witness :
  let run := RegisterEvent Sample.flatcar specUpdatesStats "i1" Sample.flatcar "stable"
               EventUpdateDownloadStarted ResultSuccess "1.0.0" ""
               (Sample.api false [false; false; false; true]) in
  fst run = Some ErrEventRegistrationFailed
  /\ db (snd run) = Sample.store
  /\ logged (snd run) = [].
Proof.
  intros run.
  destruct (insert_failure_is_registration_failed Sample.flatcar specUpdatesStats
              (Sample.api false [false; false; false; true])
              (issued (SelectGroup "stable")
                 (Sample.api false [false; false; false; true]))
              (issued (SelectInstance "i1" Sample.flatcar)
                 (issued (SelectGroup "stable")
                    (Sample.api false [false; false; false; true])))
              "i1" Sample.flatcar "stable" Sample.flatcar "stable"
              EventUpdateDownloadStarted ResultSuccess 4 "1.0.0" ""
              (Instance.Build "i1"
                 (Sample.binding Sample.flatcar "stable" InstanceStatusDownloading true))
              eq_refl eq_refl eq_refl eq_refl eq_refl eq_refl eq_refl eq_refl)
    as (Hr & Hdb & Hl & _).
  split; [exact Hr|]. split; [exact Hdb | exact Hl].
Defined.

Lemma nil_exactly_when_recorded_witness :
  let run := RegisterEvent Sample.flatcar specUpdatesStats "i1" Sample.flatcar "stable"
               EventUpdateDownloadStarted ResultSuccess "1.0.0" "E1"
               (Sample.api false []) in
  fst run = None
  /\ event (db (snd run))
     = [Event.Build 1 1000 (null.NewString "1.0.0" true) (null.NewString "E1" true)
          "i1" Sample.flatcar 4].
Proof.
  intros run.
  assert (Hr : fst run = None) by (vm_compute; reflexivity).
  pose proof (nil_exactly_when_recorded Sample.flatcar specUpdatesStats
                (Sample.api false []) "i1" Sample.flatcar "stable"
                EventUpdateDownloadStarted ResultSuccess "1.0.0" "E1"
                (fst run) (snd run) (surjective_pairing run)) as H.
  rewrite Hr in H. destruct H as (z & a & Hz & _ & _ & He).
  vm_compute in Hz. injection Hz as <-.
  split; [exact Hr|]. rewrite He. reflexivity.
Defined.

Lemma flatcar_ignored_only_for_stale_completion_witness :
  let run := RegisterEvent Sample.flatcar specUpdatesStats "i1" Sample.flatcar "stable"
               EventUpdateDownloadStarted ResultSuccess "1.0.0" ""
               (Sample.api false []) in
  fst run = None
  /\ forall i a,
       ~ In (UpdateInstanceStatus i a InstanceStatusUndefined) (journal (snd run)).
Proof.
  intros run.
  assert (Hr : fst run = None) by (vm_compute; reflexivity).
  split; [exact Hr|].
  destruct (flatcar_ignored_only_for_stale_completion Sample.flatcar specUpdatesStats
              (Sample.api false []) "i1" Sample.flatcar "stable"
              EventUpdateDownloadStarted ResultSuccess "1.0.0" ""
              (fst run) (snd run) (surjective_pairing run))
    as (_ & js & Hj & Hno).
  rewrite Hj. apply Hno. rewrite Hr. discriminate.
Defined.

Lemma registration_invisible_to_other_queries_witness :
  let first := RegisterEvent Sample.flatcar specUpdatesStats "i1" Sample.flatcar "stable"
                 EventUpdateDownloadStarted ResultSuccess "1.0.0" "E1"
                 (Sample.api false []) in
  fst first = None
  /\ fst (GetEvent "i1" Sample.flatcar 999 (snd first))
     = (null.NewString "" true, Some ErrNoRows)
  /\ fst (GetEvent "i3" Sample.otherApp 2000 (snd first))
     = (null.NewString "" true, Some ErrNoRows).
Proof.
  intros first.
  split; [vm_compute; reflexivity|].
  split.
  - rewrite (registration_invisible_to_other_queries Sample.flatcar specUpdatesStats
               (Sample.api false []) "i1" Sample.flatcar "stable"
               EventUpdateDownloadStarted ResultSuccess "1.0.0" "E1"
               (fst first) (snd first) "i1" Sample.flatcar 999
               (surjective_pairing first)
               (or_intror (or_intror (or_intror eq_refl))))
      by (vm_compute; reflexivity).
    vm_compute. reflexivity.
  - assert (Hne : "i3" <> "i1") by discriminate.
    rewrite (registration_invisible_to_other_queries Sample.flatcar specUpdatesStats
               (Sample.api false []) "i1" Sample.flatcar "stable"
               EventUpdateDownloadStarted ResultSuccess "1.0.0" "E1"
               (fst first) (snd first) "i3" Sample.otherApp 2000
               (surjective_pairing first)
               (or_intror (or_introl Hne)))
      by (vm_compute; reflexivity).
    vm_compute. reflexivity.
Defined.
